(** * gyro_integrator.py: orientation integration and stabilisation transforms

    A shallow embedding of [src/gyro_integrator.py] (classes [GyroIntegrator]
    and [EulerIntegrator]) together with the properties its specification
    states about it.

    Layout: the numeric interface, arrays and the object store; the
    [GyroIntegrator] methods; the [EulerIntegrator] methods; two numeric
    instances (exact rationals, which run, and the reals, for the
    exponential map) with sample data; the definitions that follow the
    specification's wording; then the lemmas and theorems.

    The quaternion module ([quaternion.py]) and the smoothing strategies
    ([smoothing_algos.py]) are imported by the source and are not part of
    it: their functions are parameters of the model. *)

From Stdlib Require Import ZArith QArith Qround Reals List Bool String.
From Stdlib Require Lra Lqa.
From Stdlib Require Import Lia.
From stdpp Require Import strings gmap.
Import ListNotations.


(** ** Numbers

    The program computes on numpy [float64] values.  The model is written
    against the operations the source applies to them, so that it can be run
    on exact rationals and reasoned about on the reals; a theorem that needs
    an arithmetic law names it as a hypothesis. *)

Class Num := {
  num : Type;
  lit : Q -> num;                    (* a numeric literal of the source *)
  nadd : num -> num -> num;
  nsub : num -> num -> num;
  nmul : num -> num -> num;
  ndiv : num -> num -> num;
  nsqrt : num -> num;                (* np.sqrt *)
  nsin : num -> num;                 (* np.sin *)
  ncos : num -> num;                 (* np.cos *)
  nlt : num -> num -> bool;          (* a < b *)
  nle : num -> num -> bool;          (* a <= b *)
  nonzero : num -> bool              (* truth value of a number: x != 0 *)
}.

Declare Scope num_scope.
Delimit Scope num_scope with num.
Infix "+" := nadd : num_scope.
Infix "-" := nsub : num_scope.
Infix "*" := nmul : num_scope.
Infix "/" := ndiv : num_scope.
Infix "<?" := nlt : num_scope.
Infix "<=?" := nle : num_scope.

(** Python exceptions the modelled methods can raise.  [StoreError] is the
    model's own: a reference that does not lead to an array of the expected
    shape, which no state built by the methods contains. *)
Inductive exn :=
| IndexError
| KeyError
| AttributeError
| TypeError
| UFuncTypeError
| StoreError.

(** Outcome of a call: a value, a raised exception, or [OutOfFuel] when a
    [while] loop was cut off by the model's step bound. *)
Inductive result (A : Type) :=
| Ok (a : A)
| Raise (e : exn)
| OutOfFuel.
Arguments Ok {A} a.
Arguments Raise {A} e.
Arguments OutOfFuel {A}.

Definition rbind {A B} (r : result A) (k : A -> result B) : result B :=
  match r with
  | Ok a => k a
  | Raise e => Raise e
  | OutOfFuel => OutOfFuel
  end.

Definition is_ok {A} (r : result A) : bool :=
  match r with Ok _ => true | _ => false end.

(** [l[i]] on a Python sequence, for a non-negative index. *)
Definition getitem {A} (l : list A) (i : nat) : result A :=
  match l !! i with
  | Some a => Ok a
  | None => Raise IndexError
  end.

(** [l[i] = v] on a Python sequence. *)
Definition setitem {A} (l : list A) (i : nat) (v : A) : result (list A) :=
  if (i <? length l)%nat then Ok (<[i := v]> l) else Raise IndexError.

(** [np.any] on a boolean array and [np.argmax] on a boolean array (index of
    the first maximal entry: the first [True], or 0 when there is none). *)
Definition np_any_b (l : list bool) : bool := existsb (fun b => b) l.

Fixpoint argmax (l : list bool) : nat :=
  match l with
  | [] => 0
  | true :: _ => 0
  | false :: l' => if np_any_b l' then S (argmax l') else 0
  end.

(** References to array objects. *)
Abbreviation loc := positive.

Section Arrays.
Context {N : Num}.
Local Open Scope num_scope.

(** A 3-vector [x, y, z] and a quaternion [w, x, y, z], each a numpy array
    of that many floats. *)
Record vec3 := Vec3 { vx : num; vy : num; vz : num }.
Record quat := Quat { qw : num; qx : num; qy : num; qz : num }.

(** One row [time, gyroX, gyroY, gyroZ] of the Nx4 input matrix. *)
Record sample := Sample { s_time : num; s_omega : vec3 }.

(** Array objects that live in the store: shape (N,), (N,3) and (N,4). *)
Inductive ndarray :=
| A1 (xs : list num)
| A3 (vs : list vec3)
| A4 (qs : list quat).

(** Elementwise vector operations of numpy. *)
Definition vscale (v : vec3) (k : num) : vec3 :=
  Vec3 (vx v * k) (vy v * k) (vz v * k).
Definition vdot (u v : vec3) : num :=
  vx u * vx v + vy u * vy v + vz u * vz v.

(** [np.any(omega)]: some component is non-zero. *)
Definition np_any (v : vec3) : bool :=
  nonzero (vx v) || nonzero (vy v) || nonzero (vz v).

(** Modelled from the spec: the constructor [quat.quaternion(w,x,y,z)] of
    the external quaternion module, which builds the array [w, x, y, z]. *)
Definition quaternion (w x y z : num) : quat := Quat w x y z.

(** An entry of the resampled output: either a row of the stabilising
    rotations (shape (4,)) or what [quat.slerp] returned for a one-element
    weight list (one quaternion per weight). *)
Inductive rotation :=
| Row (q : quat)
| Slerped (qs : list quat).
End Arrays.

(** The external quaternion module [quaternion] (imported as [quat]); it is
    not part of the modelled file, so its functions are parameters. *)
Class QuatLib (N : Num) := {
  quaternion_multiply : quat -> quat -> quat;
  normalize : quat -> quat;
  slerp : quat -> quat -> list num -> list quat;
  rot_between : quat -> quat -> quat
}.

(** A smoothing strategy object of the external module [smoothing_algos]. The
    arrays it receives are passed by content ([None] when the attribute still
    holds [None]); it answers with fresh arrays or raises. *)
Record SmoothingAlgo {N : Num} := {
  bypass_external_processing : bool;
  get_smooth_orientations :
    option (list num) -> option (list quat) -> result (list num * list quat);
  algo_get_stabilize_transform :
    list sample -> result (list num * list quat)
}.
Arguments SmoothingAlgo N : clear implicits.

(** ** The object store and the method monad *)

Section Store.
Context {N : Num}.

(** The state a method runs in: the store of array objects and the
    attributes of [self]. *)
Record pystate (O : Type) := PyState {
  heap : gmap loc ndarray;
  self : O
}.
Arguments PyState {O}.
Arguments heap {O}.
Arguments self {O}.

(** A method body: it returns or raises, and leaves a state either way. *)
Definition M (O A : Type) : Type := pystate O -> result A * pystate O.

Definition ret {O A} (a : A) : M O A := fun s => (Ok a, s).
Definition raise {O A} (e : exn) : M O A := fun s => (Raise e, s).
Definition bind {O A B} (m : M O A) (k : A -> M O B) : M O B :=
  fun s =>
    match m s with
    | (Ok a, s') => k a s'
    | (Raise e, s') => (Raise e, s')
    | (OutOfFuel, s') => (OutOfFuel, s')
    end.
Definition lift {O A} (r : result A) : M O A := fun s => (r, s).
Definition get_self {O} : M O O := fun s => (Ok (self s), s).
Definition put_self {O} (o : O) : M O unit :=
  fun s => (Ok tt, PyState (heap s) o).

(** A new array object. *)
Definition alloc {O} (a : ndarray) : M O loc :=
  fun s =>
    let l := fresh (dom (heap s)) in
    (Ok l, PyState (<[l := a]> (heap s)) (self s)).

(** The array an attribute refers to, by content; [None] for [None]. *)
Definition contents {O} (r : option loc) : M O (option ndarray) :=
  fun s =>
    match r with
    | None => (Ok None, s)
    | Some l => (Ok (heap s !! l), s)
    end.

(** What a caller does to an array it holds a reference to: an in-place
    write that leaves the array object at [l] with content [a]. *)
Definition mutate {O} (l : loc) (a : ndarray) : M O unit :=
  fun s => (Ok tt, PyState (<[l := a]> (heap s)) (self s)).

(** [for i in range(start, start + count)], threading the loop's locals. *)
Fixpoint for_range {O S} (body : nat -> S -> M O S)
    (start count : nat) (acc : S) : M O S :=
  match count with
  | O => ret acc
  | Datatypes.S c =>
      bind (body start acc) (fun acc' => for_range body (Datatypes.S start) c acc')
  end.
End Store.

Arguments PyState {N O}.
Arguments heap {N O}.
Arguments self {N O}.

Notation "x <- m ;; k" := (bind m (fun x => k))
  (at level 100, m at next level, right associativity).
Notation "m ;;; k" := (bind m (fun _ => k))
  (at level 100, right associativity).

(** Loops of a body that leaves the object state alone. *)
Fixpoint for_range_r {S} (body : nat -> S -> result S)
    (start count : nat) (acc : S) : result S :=
  match count with
  | O => Ok acc
  | Datatypes.S c =>
      rbind (body start acc) (fun acc' => for_range_r body (Datatypes.S start) c acc')
  end.

(** [while cond: body], cut off after [fuel] tests of the condition. *)
Fixpoint while_r {S} (fuel : nat) (cond : S -> result bool)
    (body : S -> result S) (st : S) : result S :=
  match fuel with
  | O => OutOfFuel
  | Datatypes.S f =>
      rbind (cond st) (fun c =>
        if c then rbind (body st) (fun st' => while_r f cond body st')
        else Ok st)
  end.

(** ** class GyroIntegrator *)

Module GyroIntegrator.
Section Methods.
Context {N : Num} {L : QuatLib N}.
(** [smoothing_algos.PlainSlerp()], the default strategy. *)
Variable PlainSlerp : SmoothingAlgo N.
Local Open Scope num_scope.

(** The attributes of an instance.  [data] is the instance's own copy of
    the input matrix; [orientation_list] and [time_list] hold [None] or a
    reference to an array object. *)
Record obj := Obj {
  data : list sample;
  num_data_points : nat;
  gyro_sample_rate : num;
  orientation : quat;
  orientation_list : option loc;
  time_list : option loc;
  imuRefX : vec3;
  imuRefY : vec3;
  already_integrated : bool;
  smoothing_algo : option (SmoothingAlgo N)
}.

Definition with_orientation (g : obj) (q : quat) : obj :=
  Obj (data g) (num_data_points g) (gyro_sample_rate g) q
      (orientation_list g) (time_list g) (imuRefX g) (imuRefY g)
      (already_integrated g) (smoothing_algo g).

Definition with_integrated (g : obj) (ol tl : option loc) : obj :=
  Obj (data g) (num_data_points g) (gyro_sample_rate g) (orientation g)
      ol tl (imuRefX g) (imuRefY g) true (smoothing_algo g).

Definition with_smoothing_algo (g : obj) (a : option (SmoothingAlgo N)) : obj :=
  Obj (data g) (num_data_points g) (gyro_sample_rate g) (orientation g)
      (orientation_list g) (time_list g) (imuRefX g) (imuRefY g)
      (already_integrated g) a.

(** *** __init__ *)

Definition times (d : list sample) : list num := map s_time d.

(** [self.data[:-1,0] > self.data[1:,0]] *)
Definition time_order_check (d : list sample) : list bool :=
  zip_with (fun a b => b <? a) (removelast (times d)) (tl (times d)).

(** [self.data[0:np.argmax(time_order_check)+1,:]] when some entry of the
    check is set. *)
Definition truncate (d : list sample) : list sample :=
  let check := time_order_check d in
  if np_any_b check then firstn (argmax check + 1) d else d.

Definition scale_row (time_scaling gyro_scaling : num) (r : sample) : sample :=
  Sample (s_time r * time_scaling) (vscale (s_omega r) gyro_scaling).

(** [self.data[:,2] *= -1] *)
Definition flip_y (r : sample) : sample :=
  Sample (s_time r)
         (Vec3 (vx (s_omega r)) (vy (s_omega r) * lit (-1)) (vz (s_omega r))).

Definition shift_time (t0 : num) (r : sample) : sample :=
  Sample (s_time r - t0) (s_omega r).

(** The rows as stored after truncation, scaling and the sign flip. *)
Definition scaled (input_data : list sample) (time_scaling gyro_scaling : num)
  : list sample :=
  map flip_y (map (scale_row time_scaling gyro_scaling) (truncate input_data)).

Definition default_orientation : quat :=
  Quat (lit 1) (lit (1 # 10000)) (lit (1 # 10000)) (lit (1 # 10000)).

(** [GyroIntegrator(input_data, time_scaling, gyro_scaling, zero_out_time,
    initial_orientation)].  The notice printed on truncation is not
    modelled, and [acc_data] is unused by the source.  The matrix is one of
    floating-point dtype, on which the in-place scalings always succeed; on
    an integer matrix numpy refuses a non-integer factor (UFuncTypeError),
    a case this model does not contain. *)
Definition init (input_data : list sample) (time_scaling gyro_scaling : num)
    (zero_out_time : bool) (initial_orientation : option quat) : result obj :=
  let d := scaled input_data time_scaling gyro_scaling in
  rbind (if zero_out_time
         then rbind (getitem d 0) (fun r0 => Ok (map (shift_time (s_time r0)) d))
         else Ok d) (fun d =>
  let n := length d in
  rbind (getitem d (n - 1)) (fun r_last =>
  rbind (getitem d 0) (fun r_first =>
  let rate := lit (inject_Z (Z.of_nat n)) / (s_time r_last - s_time r_first) in
  let q := match initial_orientation with
           | Some q => q
           | None => default_orientation
           end in
  Ok (Obj d n rate q None None
          (Vec3 (lit 1) (lit 0) (lit 0)) (Vec3 (lit 0) (lit 0) (lit 1))
          false None)))).

(** *** rate_to_quat *)

Definition rate_to_quat (omega : vec3) (dt : num) : quat :=
  let ha := vscale (vscale omega dt) (lit (1 # 2)) in
  let l := nsqrt (vdot ha ha) in
  if lit (1 # 1000000000000) <? l then
    let ha := vscale ha (nsin l / l) in
    let q0 := ncos l in
    let q1 := vx ha in
    let q2 := vy ha in
    let q3 := vz ha in
    normalize (quaternion q0 q1 q2 q3)
  else quaternion (lit 1) (lit 0) (lit 0) (lit 0).

(** *** integrate_all *)

(** One pass of the loop body for index [i]; the locals are
    [(temp_orientation_list, temp_time_list)]. *)
Definition integrate_step (i : nat) (temp : list quat * list num)
  : M obj (list quat * list num) :=
  g <- get_self ;;
  row <- lift (getitem (data g) i) ;;
  let omega := s_omega row in
  last_row <- lift (if (0 <? i)%nat then getitem (data g) (i - 1)
                    else getitem (data g) i) ;;
  let last_time := s_time last_row in
  let this_time := s_time row in
  next_row <- lift (if (i <? num_data_points g - 1)%nat
                    then getitem (data g) (i + 1)
                    else getitem (data g) i) ;;
  let next_time := s_time next_row in
  let delta_time := (next_time - last_time) / lit 2 in
  (if np_any omega then
     let delta_q := rate_to_quat omega delta_time in
     put_self (with_orientation g
                 (normalize (quaternion_multiply (orientation g) delta_q)))
   else ret tt) ;;;
  g <- get_self ;;
  ret (fst temp ++ [orientation g], snd temp ++ [this_time]).

Definition integrate_all : M obj (option loc * option loc) :=
  g <- get_self ;;
  if already_integrated g then ret (time_list g, orientation_list g)
  else
    temp <- for_range integrate_step 0 (num_data_points g) ([], []) ;;
    ol <- alloc (A4 (fst temp)) ;;
    tl <- alloc (A1 (snd temp)) ;;
    g <- get_self ;;
    put_self (with_integrated g (Some ol) (Some tl)) ;;;
    g <- get_self ;;
    ret (time_list g, orientation_list g).

(** *** get_orientations *)

Definition get_orientations : M obj (option (option loc * option loc)) :=
  g <- get_self ;;
  if already_integrated g then ret (Some (time_list g, orientation_list g))
  else ret None.

(** *** set_smoothing_algo *)

Definition set_smoothing_algo (algo : option (SmoothingAlgo N)) : M obj unit :=
  match algo with
  | None => ret tt
  | Some a => g <- get_self ;; put_self (with_smoothing_algo g (Some a))
  end.

(** *** get_smoothed_orientation *)

Definition as_A1 (a : option ndarray) : option (list num) :=
  match a with Some (A1 xs) => Some xs | _ => None end.
Definition as_A4 (a : option ndarray) : option (list quat) :=
  match a with Some (A4 qs) => Some qs | _ => None end.

Definition get_smoothed_orientation : M obj (list num * list quat) :=
  g <- get_self ;;
  algo <- match smoothing_algo g with
          | Some a => ret a
          | None => put_self (with_smoothing_algo g (Some PlainSlerp)) ;;;
                    ret PlainSlerp
          end ;;
  tl <- contents (time_list g) ;;
  ol <- contents (orientation_list g) ;;
  lift (get_smooth_orientations algo (as_A1 tl) (as_A4 ol)).

(** The strategy [get_smoothed_orientation] calls: the one set on the
    instance, or the default. *)
Definition current_algo (g : obj) : SmoothingAlgo N :=
  default PlainSlerp (smoothing_algo g).

(** *** get_stabilize_transform *)

(** The array behind the attribute [orientation_list], as needed for
    [self.orientation_list.shape]: [None] has no such attribute. *)
Definition orientation_rows : M obj (list quat) :=
  g <- get_self ;;
  match orientation_list g with
  | None => raise AttributeError
  | Some l =>
      a <- contents (Some l) ;;
      match as_A4 a with
      | Some qs => ret qs
      | None => raise StoreError
      end
  end.

Definition zero_quat : quat := Quat (lit 0) (lit 0) (lit 0) (lit 0).

Definition stab_step (smoothed ol : list quat) (i : nat) (stab : list quat)
  : result (list quat) :=
  rbind (getitem smoothed i) (fun s_i =>
  rbind (getitem ol i) (fun o_i =>
  setitem stab i (rot_between s_i o_i))).

Definition get_stabilize_transform : M obj (option loc * loc) :=
  sm <- get_smoothed_orientation ;;
  let smoothed_orientation := snd sm in
  ol <- orientation_rows ;;
  let stab_rotations := replicate (length ol) zero_quat in
  g <- get_self ;;
  stab_rotations <- lift (for_range_r (stab_step smoothed_orientation ol)
                            0 (num_data_points g) stab_rotations) ;;
  l <- alloc (A4 stab_rotations) ;;
  g <- get_self ;;
  ret (time_list g, l).

(** *** get_interpolated_stab_transform *)

(** The locals [(time, out_times, slerped_rotations)] of the resampling
    loops. *)
Definition rs_state : Type := num * list num * list rotation.

(** [slerped_rotations.append(r); out_times.append(time); time += interval] *)
Definition emit (interval : num) (r : rotation) (st : rs_state) : rs_state :=
  let '(time, out_times, rots) := st in
  (time + interval, out_times ++ [time], rots ++ [r]).

(** The two leading loops: [while time < 0] and [while time_list[0] >= time],
    both appending [smoothed_orientation[0]]. *)
Definition emit_first (so : list quat) (interval : num) (st : rs_state)
  : result rs_state :=
  rbind (getitem so 0) (fun q => Ok (emit interval (Row q) st)).

Definition before_zero (st : rs_state) : result bool :=
  Ok (fst (fst st) <? lit 0).

Definition before_first (tl : list num) (st : rs_state) : result bool :=
  rbind (getitem tl 0) (fun t0 => Ok (fst (fst st) <=? t0)).

(** [time_list[i] <= time < time_list[i+1]] *)
Definition in_interval (tl : list num) (i : nat) (st : rs_state) : result bool :=
  let time := fst (fst st) in
  rbind (getitem tl i) (fun ti =>
    if ti <=? time
    then rbind (getitem tl (i + 1)) (fun tj => Ok (time <? tj))
    else Ok false).

Definition emit_slerp (tl : list num) (so : list quat) (interval : num)
    (i : nat) (st : rs_state) : result rs_state :=
  let time := fst (fst st) in
  rbind (getitem tl i) (fun ti =>
  rbind (getitem tl (i + 1)) (fun tj =>
  let weight := (time - ti) / (tj - ti) in
  rbind (getitem so i) (fun qi =>
  rbind (getitem so (i + 1)) (fun qj =>
  Ok (emit interval (Slerped (slerp qi qj [weight])) st))))).

(** The body of [for i in range(len(time_list)-1)]. *)
Definition interval_step (fuel : nat) (tl : list num) (so : list quat)
    (interval : num) (i : nat) (st : rs_state) : result rs_state :=
  rbind (while_r fuel (in_interval tl i) (emit_slerp tl so interval i) st)
    (fun st =>
  rbind (getitem tl i) (fun ti =>
    if fst (fst st) <? ti
    then rbind (getitem so i) (fun q => Ok (emit interval (Row q) st))
    else Ok st)).

(** Everything after [time_list, smoothed_orientation] have been obtained;
    [fuel] bounds the number of tests of each [while] condition. *)
Definition resample (fuel : nat) (tl : list num) (so : list quat)
    (start interval : num) : result (list num * list rotation) :=
  let st : rs_state := (start, [], []) in
  rbind (while_r fuel before_zero (emit_first so interval) st) (fun st =>
  rbind (while_r fuel (before_first tl) (emit_first so interval) st) (fun st =>
  rbind (for_range_r (interval_step fuel tl so interval) 0 (length tl - 1) st)
    (fun st => Ok (snd (fst st), snd st)))).

(** The pair [(time_list, stab_rotations)] that [get_stabilize_transform]
    returned, read for indexing. *)
Definition stab_arrays : M obj (list num * list quat) :=
  r <- get_stabilize_transform ;;
  tl <- contents (fst r) ;;
  so <- contents (Some (snd r)) ;;
  match fst r, as_A1 tl, as_A4 so with
  | None, _, _ => raise TypeError
  | Some _, Some tl, Some so => ret (tl, so)
  | _, _, _ => raise StoreError
  end.

Definition get_interpolated_stab_transform (fuel : nat) (start interval : num)
  : M obj (list num * list rotation) :=
  g <- get_self ;;
  r <- match smoothing_algo g with
       | Some a =>
           if bypass_external_processing a
           then lift (algo_get_stabilize_transform a (data g))
           else stab_arrays
       | None => stab_arrays
       end ;;
  lift (resample fuel (fst r) (snd r) start interval).

(** *** get_raw_data *)

(** The [axis] argument: an [int] or a string. *)
Inductive axis_arg :=
| AxInt (k : Z)
| AxStr (s : string).

(** What [axis] is turned into: a column index or [slice(1,4)]. *)
Inductive index :=
| Col (k : Z)
| Slice_1_4.

(** The dictionary literal of [get_raw_data]. *)
Definition axis_names : gmap string index :=
  <["t" := Col 0]> (<["x" := Col 1]> (<["y" := Col 2]> (<["z" := Col 3]>
    (<["xyz" := Slice_1_4]> ∅)))).

Definition column (k : nat) (r : sample) : num :=
  match k with
  | 0%nat => s_time r
  | 1%nat => vx (s_omega r)
  | 2%nat => vy (s_omega r)
  | _ => vz (s_omega r)
  end.

(** [self.data[:,idx]]: a column of the four (a negative index counts from
    the end), or the three gyro columns. *)
Definition select (d : list sample) (idx : index) : result ndarray :=
  match idx with
  | Col k =>
      if ((-4 <=? k) && (k <? 4))%Z
      then Ok (A1 (map (column (Z.to_nat (k mod 4))) d))
      else Raise IndexError
  | Slice_1_4 => Ok (A3 (map s_omega d))
  end.

Definition get_raw_data (axis : axis_arg) : M obj loc :=
  idx <- match axis with
         | AxInt k => ret (Col k)
         | AxStr s =>
             match axis_names !! s with
             | Some idx => ret idx
             | None => raise KeyError
             end
         end ;;
  g <- get_self ;;
  a <- lift (select (data g) idx) ;;
  alloc a.
End Methods.
End GyroIntegrator.

(** ** class EulerIntegrator *)

Module EulerIntegrator.
Section Methods.
Context {N : Num}.
Local Open Scope num_scope.

(** The attributes [__init__] assigns.  There is no [orientation_list]
    among them, and no method assigns one. *)
Record obj := Obj {
  data : list sample;
  num_data_points : nat;
  euler_orientation_list : option loc;
  time_list : option loc;
  already_integrated : bool
}.

Definition with_integrated (e : obj) (ol tl : option loc) : obj :=
  Obj (data e) (num_data_points e) ol tl true.

Definition scale_row (time_scaling gyro_scaling : num) (r : sample) : sample :=
  Sample (s_time r * time_scaling) (vscale (s_omega r) gyro_scaling).

Definition shift_time (t0 : num) (r : sample) : sample :=
  Sample (s_time r - t0) (s_omega r).

(** [EulerIntegrator(input_data, time_scaling, gyro_scaling, zero_out_time)],
    on a matrix of floating-point dtype as for [GyroIntegrator]. *)
Definition init (input_data : list sample) (time_scaling gyro_scaling : num)
    (zero_out_time : bool) : result obj :=
  let d := map (scale_row time_scaling gyro_scaling) input_data in
  rbind (if zero_out_time
         then rbind (getitem d 0) (fun r0 => Ok (map (shift_time (s_time r0)) d))
         else Ok d) (fun d =>
  Ok (Obj d (length d) None None false)).

(** Reading [self.orientation_list]: the instance has no such attribute. *)
Definition read_orientation_list {A} : M obj A := raise AttributeError.

(** [euler_orientation += v] where [euler_orientation] is
    [np.array([0, 0, 0])], an integer array, and [v] a float one: numpy
    refuses to cast the float sum back into the integer array. *)
Definition iadd_int_array (euler_orientation v : vec3) : result vec3 :=
  Raise UFuncTypeError.

Definition integrate_step (i : nat) (st : vec3 * (list vec3 * list num))
  : M obj (vec3 * (list vec3 * list num)) :=
  let '(euler_orientation, (temp_orientation_list, temp_time_list)) := st in
  e <- get_self ;;
  row <- lift (getitem (data e) i) ;;
  let omega := s_omega row in
  last_row <- lift (if (0 <? i)%nat then getitem (data e) (i - 1)
                    else getitem (data e) i) ;;
  let last_time := s_time last_row in
  let this_time := s_time row in
  next_row <- lift (if (i <? num_data_points e - 1)%nat
                    then getitem (data e) (i + 1)
                    else getitem (data e) i) ;;
  let next_time := s_time next_row in
  let delta_time := (next_time - last_time) / lit 2 in
  euler_orientation <-
    (if np_any omega
     then lift (iadd_int_array euler_orientation (vscale omega delta_time))
     else ret euler_orientation) ;;
  ret (euler_orientation,
       (temp_orientation_list ++ [euler_orientation],
        temp_time_list ++ [this_time])).

Definition integrate_all : M obj (option loc * option loc) :=
  e <- get_self ;;
  if already_integrated e then
    ol <- read_orientation_list ;;
    ret (time_list e, ol)
  else
    let euler_orientation := Vec3 (lit 0) (lit 0) (lit 0) in
    st <- for_range integrate_step 0 (num_data_points e)
            (euler_orientation, ([], [])) ;;
    ol <- alloc (A3 (fst (snd st))) ;;
    tl <- alloc (A1 (snd (snd st))) ;;
    e <- get_self ;;
    put_self (with_integrated e (Some ol) (Some tl)) ;;;
    e <- get_self ;;
    ol <- read_orientation_list ;;
    ret (time_list e, ol).

(** [get_orientations] reads the same missing attribute once integration
    has been flagged. *)
Definition get_orientations : M obj (option (option loc * option loc)) :=
  e <- get_self ;;
  if already_integrated e then
    ol <- read_orientation_list ;;
    ret (Some (time_list e, ol))
  else ret None.
End Methods.
End EulerIntegrator.

(** ** class FrameRotationIntegrator(GyroIntegrator) *)

Module FrameRotationIntegrator.
Section Methods.
Context {N : Num} {L : QuatLib N}.
Local Open Scope num_scope.

(** The attributes the subclass constructor assigns.  It does not call the
    parent constructor, so an instance has no [gyro_sample_rate], and no
    [smoothing_algo] until [set_smoothing_algo] stores a strategy:
    [smoothing_algo = None] stands for the missing attribute. *)
Record obj := Obj {
  data : list sample;
  num_data_points : nat;
  orientation : quat;
  orientation_list : option loc;
  time_list : option loc;
  imuRefX : vec3;
  imuRefY : vec3;
  already_integrated : bool;
  smoothing_algo : option (SmoothingAlgo N)
}.

Definition with_orientation (g : obj) (q : quat) : obj :=
  Obj (data g) (num_data_points g) q (orientation_list g) (time_list g)
      (imuRefX g) (imuRefY g) (already_integrated g) (smoothing_algo g).

Definition with_integrated (g : obj) (ol tl : option loc) : obj :=
  Obj (data g) (num_data_points g) (orientation g) ol tl
      (imuRefX g) (imuRefY g) true (smoothing_algo g).

Definition with_smoothing_algo (g : obj) (a : SmoothingAlgo N) : obj :=
  Obj (data g) (num_data_points g) (orientation g) (orientation_list g)
      (time_list g) (imuRefX g) (imuRefY g) (already_integrated g) (Some a).

(** [FrameRotationIntegrator(input_data, initial_orientation)] *)
Definition init (input_data : list sample) (initial_orientation : option quat)
  : obj :=
  Obj input_data (length input_data)
      (match initial_orientation with
       | Some q => q
       | None => GyroIntegrator.default_orientation
       end)
      None None (Vec3 (lit 1) (lit 0) (lit 0)) (Vec3 (lit 0) (lit 0) (lit 1))
      false None.

(** One pass of the loop body of [integrate_all]: the step is one frame. *)
Definition integrate_step (i : nat) (temp : list quat * list num)
  : M obj (list quat * list num) :=
  g <- get_self ;;
  row <- lift (getitem (data g) i) ;;
  let omega := s_omega row in
  let this_time := s_time row in
  let delta_time := lit 1 in
  (if np_any omega then
     let delta_q := GyroIntegrator.rate_to_quat omega delta_time in
     put_self (with_orientation g
                 (normalize (quaternion_multiply (orientation g) delta_q)))
   else ret tt) ;;;
  g <- get_self ;;
  ret (fst temp ++ [orientation g], snd temp ++ [this_time]).

Definition integrate_all : M obj (option loc * option loc) :=
  g <- get_self ;;
  if already_integrated g then ret (time_list g, orientation_list g)
  else
    row0 <- lift (getitem (data g) 0) ;;
    let temp := ([orientation g], [s_time row0 - lit 1]) in
    temp <- for_range integrate_step 0 (num_data_points g) temp ;;
    ol <- alloc (A4 (fst temp)) ;;
    tl <- alloc (A1 (snd temp)) ;;
    g <- get_self ;;
    put_self (with_integrated g (Some ol) (Some tl)) ;;;
    g <- get_self ;;
    ret (time_list g, orientation_list g).

(** The methods inherited from [GyroIntegrator], run on this instance. *)

Definition get_orientations : M obj (option (option loc * option loc)) :=
  g <- get_self ;;
  if already_integrated g then ret (Some (time_list g, orientation_list g))
  else ret None.

Definition set_smoothing_algo (algo : option (SmoothingAlgo N)) : M obj unit :=
  match algo with
  | None => ret tt
  | Some a => g <- get_self ;; put_self (with_smoothing_algo g a)
  end.

(** Reading [self.smoothing_algo]. *)
Definition read_smoothing_algo : M obj (SmoothingAlgo N) :=
  g <- get_self ;;
  match smoothing_algo g with
  | Some a => ret a
  | None => raise AttributeError
  end.

Definition get_smoothed_orientation : M obj (list num * list quat) :=
  algo <- read_smoothing_algo ;;
  g <- get_self ;;
  tl <- contents (time_list g) ;;
  ol <- contents (orientation_list g) ;;
  lift (get_smooth_orientations algo (GyroIntegrator.as_A1 tl)
          (GyroIntegrator.as_A4 ol)).

Definition orientation_rows : M obj (list quat) :=
  g <- get_self ;;
  match orientation_list g with
  | None => raise AttributeError
  | Some l =>
      a <- contents (Some l) ;;
      match GyroIntegrator.as_A4 a with
      | Some qs => ret qs
      | None => raise StoreError
      end
  end.

Definition get_stabilize_transform : M obj (option loc * loc) :=
  sm <- get_smoothed_orientation ;;
  let smoothed_orientation := snd sm in
  ol <- orientation_rows ;;
  let stab_rotations := replicate (length ol) GyroIntegrator.zero_quat in
  g <- get_self ;;
  stab_rotations <- lift (for_range_r
                            (GyroIntegrator.stab_step smoothed_orientation ol)
                            0 (num_data_points g) stab_rotations) ;;
  l <- alloc (A4 stab_rotations) ;;
  g <- get_self ;;
  ret (time_list g, l).

Definition stab_arrays : M obj (list num * list quat) :=
  r <- get_stabilize_transform ;;
  tl <- contents (fst r) ;;
  so <- contents (Some (snd r)) ;;
  match fst r, GyroIntegrator.as_A1 tl, GyroIntegrator.as_A4 so with
  | None, _, _ => raise TypeError
  | Some _, Some tl, Some so => ret (tl, so)
  | _, _, _ => raise StoreError
  end.

Definition get_interpolated_stab_transform (fuel : nat) (start interval : num)
  : M obj (list num * list rotation) :=
  a <- read_smoothing_algo ;;
  g <- get_self ;;
  r <- (if bypass_external_processing a
        then lift (algo_get_stabilize_transform a (data g))
        else stab_arrays) ;;
  lift (GyroIntegrator.resample fuel (fst r) (snd r) start interval).
End Methods.
End FrameRotationIntegrator.

(** ** Numeric instances *)

(** Exact rationals kept in lowest terms.  Arithmetic and comparisons are
    exact (they agree with [float64] whenever every intermediate value is
    representable, as for the dyadic values of the examples below); the three
    elementary functions are rational approximations: the square root is
    taken on a grid of 10^-12 and is exact on squares of grid points, and
    sine and cosine are Taylor polynomials.  A division by zero gives 0
    here, where [float64] gives an infinity or a NaN. *)
Module QNum.
Definition sqrtQ (x : Q) : Q :=
  Qred (Z.sqrt (Qfloor (x * (1000000000000000000000000 # 1))) # 1000000000000).
Definition sinQ (x : Q) : Q :=
  Qred (x - x^3 / 6 + x^5 / 120 - x^7 / 5040).
Definition cosQ (x : Q) : Q :=
  Qred (1 - x^2 / 2 + x^4 / 24 - x^6 / 720).

#[export] Instance Q_Num : Num := {|
  num := Q;
  lit := Qred;
  nadd := fun a b => Qred (a + b);
  nsub := fun a b => Qred (a - b);
  nmul := fun a b => Qred (a * b);
  ndiv := fun a b => Qred (a / b);
  nsqrt := sqrtQ;
  nsin := sinQ;
  ncos := cosQ;
  nlt := fun a b => negb (Qle_bool b a);
  nle := Qle_bool;
  nonzero := fun a => negb (Qeq_bool a 0)
|}.

Definition qscale (k : Q) (q : @quat Q_Num) : @quat Q_Num :=
  Quat (Qred (qw q * k)) (Qred (qx q * k)) (Qred (qy q * k)) (Qred (qz q * k)).
Definition qnorm2 (q : @quat Q_Num) : Q :=
  qw q * qw q + qx q * qx q + qy q * qy q + qz q * qz q.
Definition hamilton (a b : @quat Q_Num) : @quat Q_Num :=
  Quat (Qred (qw a * qw b - qx a * qx b - qy a * qy b - qz a * qz b))
       (Qred (qw a * qx b + qx a * qw b + qy a * qz b - qz a * qy b))
       (Qred (qw a * qy b - qx a * qz b + qy a * qw b + qz a * qx b))
       (Qred (qw a * qz b + qx a * qy b - qy a * qx b + qz a * qw b)).
Definition conj (a : @quat Q_Num) : @quat Q_Num :=
  Quat (qw a) (Qred (- qx a)) (Qred (- qy a)) (Qred (- qz a)).
Definition normalizeQ (q : @quat Q_Num) : @quat Q_Num :=
  qscale (/ sqrtQ (qnorm2 q)) q.
Definition lerp (a b : @quat Q_Num) (w : Q) : @quat Q_Num :=
  Quat (Qred (qw a + w * (qw b - qw a))) (Qred (qx a + w * (qx b - qx a)))
       (Qred (qy a + w * (qy b - qy a))) (Qred (qz a + w * (qz b - qz a))).

(** A rational stand-in for the external quaternion module, used to run
    the model: Hamilton product, division by the magnitude, the relative
    rotation [conj a * b], and normalised linear interpolation in place of
    the spherical one. *)
#[export] Instance Q_QuatLib : QuatLib Q_Num := {|
  quaternion_multiply := hamilton;
  normalize := normalizeQ;
  slerp := fun a b ws => map (fun w => normalizeQ (lerp a b w)) ws;
  rot_between := fun a b => hamilton (conj a) b
|}.

(** A strategy that returns the track it is given. *)
Definition keep_track : SmoothingAlgo Q_Num := {|
  bypass_external_processing := false;
  get_smooth_orientations := fun tl ol =>
    match tl, ol with
    | Some tl, Some ol => Ok (tl, ol)
    | _, _ => Raise TypeError
    end;
  algo_get_stabilize_transform := fun _ => Raise AttributeError
|}.

(** Sample data for runs of the model: three samples at times 0, 1, 2 that
    carry no rotation; the instance [GyroIntegrator(rows_012)]; the state
    after [integrate_all()] on it in an empty store; and the stabilising
    rotation the stand-in library computes for its default orientation. *)
Local Open Scope Q_scope.
Definition still : @vec3 Q_Num := Vec3 0 0 0.
Definition rows_012 : list (@sample Q_Num) :=
  [Sample 0 still; Sample 1 still; Sample 2 still].
Definition g_012 : GyroIntegrator.obj :=
  GyroIntegrator.Obj rows_012 3%nat (3 # 2) GyroIntegrator.default_orientation
    None None (Vec3 1 0 0) (Vec3 0 0 1) false None.
Definition s_012 : pystate GyroIntegrator.obj :=
  PyState
    (<[2%positive := A1 [0; 1; 2]]>
       (<[1%positive := A4 (replicate 3%nat GyroIntegrator.default_orientation)]> ∅))
    (GyroIntegrator.with_integrated g_012 (Some 1%positive) (Some 2%positive)).
Definition q_012 : @quat Q_Num := Quat (100000003 # 100000000) 0 0 0.

(** A track that turns about z, rests, then turns about x, with a gap
    before the last sample; and its instance with the identity as initial
    orientation. *)
Definition rows_turn : list (@sample Q_Num) :=
  [Sample 0 (Vec3 0 0 1); Sample 1 still; Sample 3 (Vec3 1 0 0)].
Definition g_turn : GyroIntegrator.obj :=
  GyroIntegrator.Obj rows_turn 3%nat 1 (Quat 1 0 0 0)
    None None (Vec3 1 0 0) (Vec3 0 0 1) false None.

(** Timestamps 0, 1, 2, 1.5, 3 (one step back) and 0, 1, 1, 2 (one
    repeated). *)
Definition rows_back : list (@sample Q_Num) :=
  [Sample 0 (Vec3 1 0 0); Sample 1 (Vec3 0 1 0); Sample 2 (Vec3 0 0 1);
   Sample (3 # 2) (Vec3 1 1 0); Sample 3 (Vec3 0 1 1)].
Definition rows_repeat : list (@sample Q_Num) :=
  [Sample 0 still; Sample 1 still; Sample 1 still; Sample 2 still].

(** A strategy that accepts missing arrays and answers with empty ones. *)
Definition lenient_track : SmoothingAlgo Q_Num := {|
  bypass_external_processing := false;
  get_smooth_orientations := fun tl ol => Ok (default [] tl, default [] ol);
  algo_get_stabilize_transform := fun _ => Raise AttributeError
|}.

(** The instance [EulerIntegrator(rows_012)]. *)
Definition e_012 : EulerIntegrator.obj :=
  EulerIntegrator.Obj rows_012 3%nat None None false.
End QNum.

(** The reals: exact arithmetic with the true square root, sine and cosine. *)
Module RNum.
#[export] Instance R_Num : Num := {|
  num := R;
  lit := Q2R;
  nadd := Rplus;
  nsub := Rminus;
  nmul := Rmult;
  ndiv := Rdiv;
  nsqrt := sqrt;
  nsin := sin;
  ncos := cos;
  nlt := fun a b => if Rlt_dec a b then true else false;
  nle := fun a b => if Rle_dec a b then true else false;
  nonzero := fun a => if Req_dec_T a 0%R then false else true
|}.

Definition norm2 (q : @quat R_Num) : R :=
  (qw q * qw q + qx q * qx q + qy q * qy q + qz q * qz q)%R.

(** Division of a quaternion by its magnitude. *)
Definition normalizeR (q : @quat R_Num) : @quat R_Num :=
  let m := sqrt (norm2 q) in
  Quat (qw q / m)%R (qx q / m)%R (qy q / m)%R (qz q / m)%R.

Definition hamiltonR (a b : @quat R_Num) : @quat R_Num :=
  Quat (qw a * qw b - qx a * qx b - qy a * qy b - qz a * qz b)%R
       (qw a * qx b + qx a * qw b + qy a * qz b - qz a * qy b)%R
       (qw a * qy b - qx a * qz b + qy a * qw b + qz a * qx b)%R
       (qw a * qz b + qx a * qy b - qy a * qx b + qz a * qw b)%R.
Definition conjR (a : @quat R_Num) : @quat R_Num :=
  Quat (qw a) (- qx a)%R (- qy a)%R (- qz a)%R.
Definition lerpR (a b : @quat R_Num) (w : R) : @quat R_Num :=
  Quat (qw a + w * (qw b - qw a))%R (qx a + w * (qx b - qx a))%R
       (qy a + w * (qy b - qy a))%R (qz a + w * (qz b - qz a))%R.

(** A quaternion module over the reals: Hamilton product, division by the
    magnitude, relative rotation [conj a * b], and normalised linear
    interpolation in place of the spherical one. *)
#[export] Instance R_QuatLib : QuatLib R_Num := {|
  quaternion_multiply := hamiltonR;
  normalize := normalizeR;
  slerp := fun a b ws => map (fun w => normalizeR (lerpR a b w)) ws;
  rot_between := fun a b => hamiltonR (conjR a) b
|}.
End RNum.

(** ** Definitions that follow the specification's wording *)

Section Specification.
Context {N : Num} {L : QuatLib N}.
Local Open Scope num_scope.

(** "dt = (t[i+1] - t[i-1]) / 2, reusing t[i] itself for a missing neighbor
    at the sequence boundaries" *)
Definition symmetric_dt (ts : list num) (i : nat) : num :=
  let t_i := default (lit 0) (ts !! i) in
  let t_prev := match i with
                | O => t_i
                | S j => default (lit 0) (ts !! j)
                end in
  let t_next := if (S i <? length ts)%nat
                then default (lit 0) (ts !! S i)
                else t_i in
  (t_next - t_prev) / lit 2.

Definition omega_at (d : list sample) (i : nat) : vec3 :=
  default (Vec3 (lit 0) (lit 0) (lit 0)) (s_omega <$> d !! i).

(** "Exponential map: half-angle vector ha = omega*dt/2; magnitude
    l = |ha|.  If l > 1e-12: (cos l, ha*sin(l)/l), then normalized.
    Otherwise: identity quaternion (1,0,0,0)." *)
Definition exp_map (omega : vec3) (dt : num) : quat :=
  let ha := Vec3 (vx omega * dt / lit 2) (vy omega * dt / lit 2)
                 (vz omega * dt / lit 2) in
  let l := nsqrt (vdot ha ha) in
  if lit (1 # 1000000000000) <? l
  then normalize (Quat (ncos l) (vx ha * nsin l / l) (vy ha * nsin l / l)
                       (vz ha * nsin l / l))
  else Quat (lit 1) (lit 0) (lit 0) (lit 0).

(** The orientation after sample [i]: held when the angular velocity of
    the sample is zero, otherwise the previous orientation composed on the
    right with the incremental quaternion, then normalised. *)
Fixpoint orientation_after (d : list sample) (q0 : quat) (i : nat) : quat :=
  let prev := match i with
              | O => q0
              | S j => orientation_after d q0 j
              end in
  let omega := omega_at d i in
  if np_any omega
  then normalize (quaternion_multiply prev
         (GyroIntegrator.rate_to_quat omega
            (symmetric_dt (GyroIntegrator.times d) i)))
  else prev.

(** The orientation held when the loop reaches index [i]. *)
Definition orientation_before (d : list sample) (q0 : quat) (i : nat) : quat :=
  match i with
  | O => q0
  | S j => orientation_after d q0 j
  end.

(** [a] does not come before [b]: the stored order test [a > b] fails. *)
Definition nondecreasing (ts : list num) : Prop :=
  forall i a b, ts !! i = Some a -> ts !! S i = Some b -> (b <? a) = false.

Definition strictly_increasing (ts : list num) : Prop :=
  forall i a b, ts !! i = Some a -> ts !! S i = Some b -> (a <? b) = true.

(** No output time recorded so far by the resampling loops lies beyond
    [m]. *)
Definition within (m : num) (st : GyroIntegrator.rs_state) : Prop :=
  Forall (fun t => (m <? t) = false) (snd (fst st)).

(** Every angular-velocity entry of the matrix is zero. *)
Definition all_zero (d : list sample) : Prop :=
  Forall (fun r => np_any (s_omega r) = false) d.
End Specification.

(** ** Closed forms of what the loops compute *)

Section Tracks.
Context {N : Num} {L : QuatLib N}.
Local Open Scope num_scope.

(** The array of [get_stabilize_transform] after [i] passes of its loop over
    [m] zero rows: a rotation in each of the first [i] rows. *)
Definition filled (sm ol : list quat) (m i : nat) : list quat :=
  zip_with rot_between (take i sm) (take i ol)
    ++ replicate (m - i) GyroIntegrator.zero_quat.

(** The grid [start, start + interval, ...] of [n] points, each obtained
    from the one before by the addition [time += interval]. *)
Fixpoint grid (start interval : num) (n : nat) : list num :=
  match n with
  | O => []
  | S k => start :: grid (start + interval) interval k
  end.

(** The locals of the resampling loops after some outputs: the outputs are
    a grid, the clock is its next point, and there is one rotation per
    output time. *)
Definition on_grid (start interval : num) (st : GyroIntegrator.rs_state)
  : Prop :=
  let '(time, out, rots) := st in
  out = grid start interval (length out) /\
  time = Nat.iter (length out) (fun t => t + interval) start /\
  length rots = length out.

(** The clock values at which the resampling loops add the interval: below
    zero, or not beyond some timestamp. *)
Definition clock_below (tl : list num) (t : num) : Prop :=
  (t <? lit 0) = true \/
  exists i ti, tl !! i = Some ti /\ ((t <=? ti) = true \/ (t <? ti) = true).

(** A clock whose rank, under a measure [rank] of clock values, has not
    risen above that of the start time. *)
Definition clock_ranked (rank : num -> nat) (start : num)
    (st : GyroIntegrator.rs_state) : Prop :=
  (rank (fst (fst st)) <= rank start)%nat.

(** The orientation after frame [i] of the frame-rotation track: as
    [orientation_after], with a step of one frame whatever the timestamps
    are. *)
Fixpoint frame_orientation_after (d : list sample) (q0 : quat) (i : nat)
  : quat :=
  let prev := match i with
              | O => q0
              | S j => frame_orientation_after d q0 j
              end in
  let omega := omega_at d i in
  if np_any omega
  then normalize (quaternion_multiply prev
         (GyroIntegrator.rate_to_quat omega (lit 1)))
  else prev.

Definition frame_orientation_before (d : list sample) (q0 : quat) (i : nat)
  : quat :=
  match i with
  | O => q0
  | S j => frame_orientation_after d q0 j
  end.
End Tracks.

(** On the rationals: the number of passes left before the clock [t],
    advancing by [interval], goes past the bound [b]. *)
Definition passes_left (interval b t : Q) : nat :=
  Z.to_nat (Qfloor ((b - t) / interval) + 1).

(** More sample data for runs of the model on the rationals. *)
Module QRuns.
Import QNum.
Local Open Scope Q_scope.

(** A strategy that answers with the first smoothed orientation only. *)
Definition short_track : SmoothingAlgo Q_Num := {|
  bypass_external_processing := false;
  get_smooth_orientations := fun tl ol =>
    Ok (default [] tl, take 1 (default [] ol));
  algo_get_stabilize_transform := fun _ => Raise AttributeError
|}.

(** The instances [FrameRotationIntegrator(rows_012)] and
    [FrameRotationIntegrator(rows_turn, [1, 0, 0, 0])]. *)
Definition f_012 : FrameRotationIntegrator.obj :=
  FrameRotationIntegrator.Obj rows_012 3%nat GyroIntegrator.default_orientation
    None None (Vec3 1 0 0) (Vec3 0 0 1) false None.
Definition f_turn : FrameRotationIntegrator.obj :=
  FrameRotationIntegrator.Obj rows_turn 3%nat (Quat 1 0 0 0)
    None None (Vec3 1 0 0) (Vec3 0 0 1) false None.

(** The state after [set_smoothing_algo(keep_track)] and [integrate_all()]
    on [f_012] in an empty store. *)
Definition fs_012 : pystate FrameRotationIntegrator.obj :=
  PyState
    (<[2%positive := A1 [-1; 0; 1; 2]]>
       (<[1%positive := A4 (replicate 4%nat GyroIntegrator.default_orientation)]> ∅))
    (FrameRotationIntegrator.Obj rows_012 3%nat
       GyroIntegrator.default_orientation (Some 1%positive) (Some 2%positive)
       (Vec3 1 0 0) (Vec3 0 0 1) true (Some keep_track)).

(** The instance [EulerIntegrator(rows_turn)]. *)
Definition e_turn : EulerIntegrator.obj :=
  EulerIntegrator.Obj rows_turn 3%nat None None false.
End QRuns.

(** * Properties *)

(** ** Loops *)

Section LoopFacts.
Context {N : Num}.

(** An invariant that every pass of the body re-establishes holds when
    the [for] loop ends, and the loop does end normally. *)
Lemma for_range_ok {O S} (body : nat -> S -> M O S)
    (I : nat -> S -> pystate O -> Prop) :
  forall count start acc s,
    I start acc s ->
    (forall i acc s, start <= i < start + count -> I i acc s ->
       exists acc' s', body i acc s = (Ok acc', s') /\ I (Datatypes.S i) acc' s') ->
    exists acc' s',
      for_range body start count acc s = (Ok acc', s') /\
      I (start + count) acc' s'.
Proof.
  induction count as [|c IH]; intros start acc s HI Hbody.
  - exists acc, s. rewrite Nat.add_0_r. split; [reflexivity | exact HI].
  - destruct (Hbody start acc s ltac:(lia) HI) as (acc1 & s1 & Hb & HI1).
    destruct (IH (Datatypes.S start) acc1 s1 HI1) as (acc2 & s2 & Hf & HI2).
    { intros i a t Hi. apply Hbody. lia. }
    exists acc2, s2. split.
    + cbn [for_range]. unfold bind. rewrite Hb. exact Hf.
    + replace (start + Datatypes.S c) with (Datatypes.S start + c) by lia.
      exact HI2.
Qed.

(** Partial-correctness rules for the loops without object state. *)
Lemma while_r_inv {S} (I : S -> Prop) (cond : S -> result bool)
    (body : S -> result S) :
  (forall st st', I st -> cond st = Ok true -> body st = Ok st' -> I st') ->
  forall fuel st st', I st -> while_r fuel cond body st = Ok st' -> I st'.
Proof.
  intros Hstep. induction fuel as [|f IH]; intros st st' HI Hrun.
  - discriminate.
  - cbn [while_r] in Hrun.
    destruct (cond st) as [[|]| |] eqn:Hc; cbn [rbind] in Hrun; try discriminate.
    + destruct (body st) as [st1| |] eqn:Hb; cbn [rbind] in Hrun; try discriminate.
      eapply IH; [|exact Hrun]. eapply Hstep; eauto.
    + injection Hrun as <-. exact HI.
Qed.

Lemma for_range_r_inv {S} (I : S -> Prop) (body : nat -> S -> result S) :
  (forall i st st', I st -> body i st = Ok st' -> I st') ->
  forall count start st st',
    I st -> for_range_r body start count st = Ok st' -> I st'.
Proof.
  intros Hstep. induction count as [|c IH]; intros start st st' HI Hrun.
  - injection Hrun as <-. exact HI.
  - cbn [for_range_r] in Hrun.
    destruct (body start st) as [st1| |] eqn:Hb; cbn [rbind] in Hrun;
      try discriminate.
    eapply IH; [|exact Hrun]. eapply Hstep; eauto.
Qed.

(** A body that never runs out of fuel gives a loop that never does. *)
Lemma for_range_fuel {O S} (body : nat -> S -> M O S) :
  (forall i acc s, fst (body i acc s) <> OutOfFuel) ->
  forall count start acc s, fst (for_range body start count acc s) <> OutOfFuel.
Proof.
  intros Hb. induction count as [|c IH]; intros start acc s.
  - discriminate.
  - cbn [for_range]. unfold bind.
    specialize (Hb start acc s).
    destruct (body start acc s) as [[a|e|] s1]; cbn in *;
      first [apply IH | congruence].
Qed.
End LoopFacts.

(** ** GyroIntegrator: integration *)

Section GyroFacts.
Context {N : Num} {L : QuatLib N}.
Import GyroIntegrator.
Local Open Scope num_scope.

Lemma getitem_lookup {A} (l : list A) i a : l !! i = Some a -> getitem l i = Ok a.
Proof. unfold getitem. intros ->. reflexivity. Qed.

Lemma times_lookup (d : list sample) i row :
  d !! i = Some row -> times d !! i = Some (s_time row).
Proof. intros H. unfold times. rewrite list_lookup_fmap, H. reflexivity. Qed.

(** The two neighbour reads of the loop body succeed inside the matrix and
    give the symmetric time step. *)
Lemma neighbours_ok (d : list sample) n i row :
  n = length d -> d !! i = Some row ->
  exists a b,
    (if (0 <? i)%nat then getitem d (i - 1) else getitem d i) = Ok a /\
    (if (i <? n - 1)%nat then getitem d (i + 1) else getitem d i) = Ok b /\
    (s_time b - s_time a) / lit 2 = symmetric_dt (times d) i.
Proof.
  intros -> Hrow.
  assert (Hi : (i < length d)%nat) by (eapply lookup_lt_Some; exact Hrow).
  assert (Ha : exists a, (if (0 <? i)%nat then getitem d (i - 1) else getitem d i) = Ok a /\
               s_time a = match i with
                          | O => default (lit 0) (times d !! i)
                          | S j => default (lit 0) (times d !! j)
                          end).
  { destruct i as [|j].
    - exists row. cbn [Nat.ltb Nat.leb]. rewrite (getitem_lookup _ _ _ Hrow).
      rewrite (times_lookup _ _ _ Hrow). split; reflexivity.
    - destruct (lookup_lt_is_Some_2 d j ltac:(lia)) as [a Ha].
      exists a. replace (S j - 1)%nat with j by lia.
      change (0 <? S j)%nat with true. cbn iota.
      rewrite (getitem_lookup _ _ _ Ha), (times_lookup _ _ _ Ha).
      split; reflexivity. }
  assert (Hb : exists b, (if (i <? length d - 1)%nat then getitem d (i + 1) else getitem d i) = Ok b /\
               s_time b = if (S i <? length (times d))%nat
                          then default (lit 0) (times d !! S i)
                          else default (lit 0) (times d !! i)).
  { unfold times at 1. rewrite length_map.
    destruct (Nat.ltb_spec (S i) (length d)) as [Hlt|Hge].
    - destruct (lookup_lt_is_Some_2 d (S i) Hlt) as [b Hb].
      exists b. replace (i <? length d - 1)%nat with true
        by (symmetry; apply Nat.ltb_lt; lia).
      replace (i + 1)%nat with (S i) by lia.
      rewrite (getitem_lookup _ _ _ Hb), (times_lookup _ _ _ Hb).
      split; reflexivity.
    - exists row. replace (i <? length d - 1)%nat with false
        by (symmetry; apply Nat.ltb_ge; lia).
      rewrite (getitem_lookup _ _ _ Hrow), (times_lookup _ _ _ Hrow).
      split; reflexivity. }
  destruct Ha as (a & Ha & Hta), Hb as (b & Hb & Htb).
  exists a, b. split; [exact Ha|]. split; [exact Hb|].
  unfold symmetric_dt. rewrite Hta, Htb. reflexivity.
Qed.

Lemma integrate_step_ok (g0 : obj) (h0 : gmap loc ndarray) i row qs ts :
  num_data_points g0 = length (data g0) ->
  data g0 !! i = Some row ->
  integrate_step i (qs, ts)
      (PyState h0 (with_orientation g0
                     (orientation_before (data g0) (orientation g0) i))) =
    (Ok (qs ++ [orientation_after (data g0) (orientation g0) i],
         ts ++ [s_time row]),
     PyState h0 (with_orientation g0
                   (orientation_after (data g0) (orientation g0) i))).
Proof.
  intros Hn Hrow.
  destruct (neighbours_ok (data g0) (num_data_points g0) i row Hn Hrow)
    as (a & b & Ha & Hb & Hdt).
  assert (Hafter : orientation_after (data g0) (orientation g0) i =
            if np_any (s_omega row)
            then normalize (quaternion_multiply
                   (orientation_before (data g0) (orientation g0) i)
                   (rate_to_quat (s_omega row) ((s_time b - s_time a) / lit 2)))
            else orientation_before (data g0) (orientation g0) i).
  { rewrite Hdt. destruct i; cbn [orientation_after orientation_before];
      unfold omega_at; rewrite Hrow; reflexivity. }
  unfold integrate_step, bind, get_self, lift, ret, put_self.
  cbn [self heap data num_data_points orientation with_orientation fst snd].
  rewrite Ha, Hb, (getitem_lookup _ _ _ Hrow), Hafter.
  destruct (np_any (s_omega row)); reflexivity.
Qed.

(** What the loop of [integrate_all] computes on an instance whose
    [num_data_points] is the number of rows. *)
Lemma integrate_loop_ok (g0 : obj) (h0 : gmap loc ndarray) :
  num_data_points g0 = length (data g0) ->
  let d := data g0 in
  let q0 := orientation g0 in
  let n := length d in
  for_range integrate_step 0 n ([], []) (PyState h0 g0) =
    (Ok (map (orientation_after d q0) (seq 0 n), times d),
     PyState h0 (with_orientation g0 (orientation_before d q0 n))).
Proof.
  intros Hn d q0 n.
  destruct (for_range_ok integrate_step
    (fun i acc s =>
       acc = (map (orientation_after d q0) (seq 0 i), take i (times d)) /\
       s = PyState h0 (with_orientation g0 (orientation_before d q0 i)))
    n 0 ([], []) (PyState h0 g0)) as (acc & s & Hrun & Hacc & Hs).
  - split; [reflexivity|]. destruct g0; reflexivity.
  - intros i acc s [_ Hi] [-> ->]. cbn in Hi.
    destruct (lookup_lt_is_Some_2 d i Hi) as [row Hrow].
    eexists _, _. split; [apply (integrate_step_ok g0 h0 i row); assumption|].
    split; [|reflexivity].
    rewrite seq_S, map_app. cbn [map Nat.add].
    rewrite (take_S_r _ _ _ (times_lookup _ _ _ Hrow)). reflexivity.
  - rewrite Hrun, Hacc, Hs. cbn [Nat.add].
    rewrite firstn_all2 by (unfold times; rewrite length_map; reflexivity).
    reflexivity.
Qed.

(** *** integrate_all *)

Lemma integrate_all_cached (s : pystate obj) :
  already_integrated (self s) = true ->
  integrate_all s = (Ok (time_list (self s), orientation_list (self s)), s).
Proof.
  intros H. unfold integrate_all, bind, get_self, ret. cbn. rewrite H.
  reflexivity.
Qed.

(** The first run: the track is computed, stored in two new array objects
    and the instance is flagged. *)
Lemma integrate_all_first (s : pystate obj) :
  already_integrated (self s) = false ->
  num_data_points (self s) = length (data (self s)) ->
  let g := self s in
  let d := data g in
  let q0 := orientation g in
  let lo := fresh (dom (heap s)) in
  let h1 := <[lo := A4 (map (orientation_after d q0) (seq 0 (length d)))]> (heap s) in
  let lt := fresh (dom h1) in
  integrate_all s =
    (Ok (Some lt, Some lo),
     PyState (<[lt := A1 (times d)]> h1)
             (with_integrated
                (with_orientation g (orientation_before d q0 (length d)))
                (Some lo) (Some lt))).
Proof.
  intros Hint Hn g d q0 lo h1 lt.
  unfold integrate_all, bind, get_self, ret. cbn [self fst snd].
  rewrite Hint, Hn.
  destruct s as [h g']. cbn [self heap] in *.
  rewrite (integrate_loop_ok g' h Hn).
  reflexivity.
Qed.

Lemma fresh_insert_ne (h : gmap loc ndarray) (a : ndarray) :
  fresh (dom (<[fresh (dom h) := a]> h)) <> fresh (dom h).
Proof.
  intros Heq.
  apply (is_fresh (dom (<[fresh (dom h) := a]> h))).
  rewrite Heq at 1. rewrite dom_insert_L. set_solver.
Qed.

Lemma fresh_lookup (h : gmap loc ndarray) : h !! fresh (dom h) = None.
Proof. apply not_elem_of_dom, is_fresh. Qed.

Lemma orientation_after_unfold (d : list sample) (q0 : quat) i row :
  d !! i = Some row ->
  orientation_after d q0 i =
    let prev := orientation_before d q0 i in
    if np_any (s_omega row)
    then normalize (quaternion_multiply prev
           (rate_to_quat (s_omega row) (symmetric_dt (times d) i)))
    else prev.
Proof.
  intros Hrow. destruct i; cbn [orientation_after orientation_before];
    unfold omega_at; rewrite Hrow; reflexivity.
Qed.

Lemma lookup_map_seq {A} (f : nat -> A) n i :
  i < n -> map f (seq 0 n) !! i = Some (f i).
Proof.
  intros Hi. change (map f (seq 0 n)) with (f <$> seq 0 n).
  rewrite list_lookup_fmap, lookup_seq_lt by exact Hi. reflexivity.
Qed.

(** A call that returns and leaves the state as it found it does so again,
    however often it is repeated. *)
Lemma integrate_all_repeat (s : pystate obj) r :
  integrate_all s = (Ok r, s) ->
  forall n,
    Nat.iter n (fun st => snd (integrate_all st)) s = s /\
    integrate_all (Nat.iter n (fun st => snd (integrate_all st)) s) = (Ok r, s).
Proof.
  intros Hrun. induction n as [|n [IHs IHr]].
  - split; [reflexivity|exact Hrun].
  - assert (Hs : Nat.iter (S n) (fun st => snd (integrate_all st)) s = s).
    { cbn [Nat.iter nat_rect]. unfold Nat.iter in IHs. rewrite IHs, Hrun.
      reflexivity. }
    split; [exact Hs|]. rewrite Hs. exact Hrun.
Qed.

(** C8: integrate_all is idempotent.  On every instance (whose
    [num_data_points] is its number of rows, as the constructor sets it)
    the call returns a pair of references, flags the instance and leaves
    the pair cached in [time_list] and [orientation_list].  On an instance
    that was not integrated the two references are new array objects which
    hold the computed track: the timestamps, and the orientation after each
    sample.  A call on an integrated instance changes nothing.  The next
    call, and every call after it, returns the same pair and leaves the
    whole state, store and attributes, as the first call left it: nothing
    is recomputed. *)
Theorem integrate_all_idempotent (s : pystate obj) :
  num_data_points (self s) = length (data (self s)) ->
  let d := data (self s) in
  let q0 := orientation (self s) in
  exists lt lo s',
    integrate_all s = (Ok (lt, lo), s') /\
    already_integrated (self s') = true /\
    time_list (self s') = lt /\ orientation_list (self s') = lo /\
    (already_integrated (self s) = false ->
       exists l_t l_o,
         lt = Some l_t /\ lo = Some l_o /\
         heap s !! l_t = None /\ heap s !! l_o = None /\ l_t <> l_o /\
         heap s' !! l_t = Some (A1 (times d)) /\
         heap s' !! l_o =
           Some (A4 (map (orientation_after d q0) (seq 0 (length d))))) /\
    (already_integrated (self s) = true -> s' = s) /\
    integrate_all s' = (Ok (lt, lo), s') /\
    forall n,
      Nat.iter n (fun st => snd (integrate_all st)) s' = s' /\
      integrate_all (Nat.iter n (fun st => snd (integrate_all st)) s')
        = (Ok (lt, lo), s').
Proof.
  intros Hn d q0. destruct (already_integrated (self s)) eqn:Hint.
  - pose proof (integrate_all_cached s Hint) as Hc.
    exists (time_list (self s)), (orientation_list (self s)), s.
    split; [exact Hc|]. split; [exact Hint|].
    split; [reflexivity|]. split; [reflexivity|].
    split; [discriminate|]. split; [reflexivity|].
    split; [exact Hc|]. apply integrate_all_repeat, Hc.
  - rewrite (integrate_all_first s Hint Hn). fold d q0.
    set (lo := fresh (dom (heap s))).
    set (h1 := <[lo := _]> (heap s)).
    set (lt := fresh (dom h1)).
    assert (Hne : lt <> lo) by apply fresh_insert_ne.
    set (s' := PyState _ _).
    assert (Hagain : integrate_all s' = (Ok (Some lt, Some lo), s'))
      by (apply integrate_all_cached; reflexivity).
    exists (Some lt), (Some lo), s'.
    split; [reflexivity|]. split; [reflexivity|].
    split; [reflexivity|]. split; [reflexivity|].
    split.
    { intros _. exists lt, lo. split; [reflexivity|]. split; [reflexivity|].
      split.
      { pose proof (fresh_lookup h1) as Hf. fold lt in Hf. unfold h1 in Hf.
        rewrite lookup_insert_ne in Hf by congruence. exact Hf. }
      split; [apply fresh_lookup|]. split; [exact Hne|].
      unfold s'. cbn [heap].
      split; [apply lookup_insert_eq|].
      rewrite lookup_insert_ne by exact Hne. apply lookup_insert_eq. }
    split; [discriminate|].
    split; [exact Hagain|]. apply integrate_all_repeat, Hagain.
Qed.

(** C7: the per-sample rule of integrate_all.  On a first run the returned
    arrays hold, for every sample index [i], the timestamp [t[i]] and the
    orientation obtained from the previous one ([self.orientation] for
    [i = 0]): unchanged when the angular velocity of sample [i] is zero,
    and otherwise normalize(previous * rate_to_quat(omega, dt)) with the
    symmetric step dt = (t[i+1] - t[i-1])/2, [t[i]] standing in for a
    missing neighbour. *)
Theorem integrate_all_symmetric_step (s : pystate obj) :
  already_integrated (self s) = false ->
  num_data_points (self s) = length (data (self s)) ->
  let d := data (self s) in
  let q0 := orientation (self s) in
  exists lt lo s' ts qs,
    integrate_all s = (Ok (Some lt, Some lo), s') /\
    heap s' !! lt = Some (A1 ts) /\
    heap s' !! lo = Some (A4 qs) /\
    length ts = length d /\ length qs = length d /\
    forall i row, d !! i = Some row ->
      let prev := match i with
                  | O => q0
                  | S j => default q0 (qs !! j)
                  end in
      let dt := symmetric_dt (times d) i in
      ts !! i = Some (s_time row) /\
      qs !! i = Some (if np_any (s_omega row)
                      then normalize (quaternion_multiply prev
                             (rate_to_quat (s_omega row) dt))
                      else prev).
Proof.
  intros Hint Hn d q0.
  rewrite (integrate_all_first s Hint Hn). fold d q0.
  eexists _, _, _, _, _. split; [reflexivity|]. cbn [heap].
  split; [apply lookup_insert_eq|].
  split; [rewrite lookup_insert_ne by apply fresh_insert_ne;
          apply lookup_insert_eq|].
  split; [unfold times; apply length_map|].
  split; [rewrite length_map; apply length_seq|].
  intros i row Hrow.
  assert (Hi : i < length d) by (eapply lookup_lt_Some; exact Hrow).
  split; [apply times_lookup; exact Hrow|].
  rewrite lookup_map_seq by exact Hi.
  rewrite (orientation_after_unfold d q0 i row Hrow). cbv zeta.
  replace (orientation_before d q0 i)
    with (match i with
          | O => q0
          | S j => default q0 (map (orientation_after d q0) (seq 0 (length d)) !! j)
          end); [reflexivity|].
  destruct i as [|j]; [reflexivity|].
  rewrite lookup_map_seq by lia. reflexivity.
Qed.
End GyroFacts.

(** ** GyroIntegrator: the constructor *)

Section InitFacts.
Context {N : Num} {L : QuatLib N}.
Import GyroIntegrator.
Local Open Scope num_scope.

(** What a successful construction leaves in the attributes. *)
Lemma init_ok input time_scaling gyro_scaling zero_out_time io g :
  init input time_scaling gyro_scaling zero_out_time io = Ok g ->
  (exists r0, scaled input time_scaling gyro_scaling !! 0 = Some r0 /\
     data g = if zero_out_time
              then map (shift_time (s_time r0))
                       (scaled input time_scaling gyro_scaling)
              else scaled input time_scaling gyro_scaling) /\
  num_data_points g = length (data g) /\
  orientation g = default default_orientation io /\
  orientation_list g = None /\ time_list g = None /\
  already_integrated g = false /\ smoothing_algo g = None.
Proof.
  unfold init. set (d0 := scaled input time_scaling gyro_scaling).
  intros H.
  assert (Hd0 : exists r0, d0 !! 0 = Some r0 /\
            exists d, d = (if zero_out_time then map (shift_time (s_time r0)) d0 else d0) /\
            rbind (getitem d (length d - 1)) (fun r_last =>
              rbind (getitem d 0) (fun r_first =>
                Ok (Obj d (length d)
                      (lit (inject_Z (Z.of_nat (length d))) /
                         (s_time r_last - s_time r_first))
                      (match io with Some q => q | None => default_orientation end)
                      None None (Vec3 (lit 1) (lit 0) (lit 0))
                      (Vec3 (lit 0) (lit 0) (lit 1)) false None))) = Ok g).
  { destruct zero_out_time.
    - unfold getitem at 1 in H. destruct (d0 !! 0) as [r0|] eqn:H0;
        [|discriminate]. cbn [rbind] in H. eauto.
    - cbn [rbind] in H. destruct (d0 !! 0) as [r0|] eqn:H0.
      + eauto.
      + destruct d0; [|discriminate]. discriminate. }
  destruct Hd0 as (r0 & H0 & d & Hd & Hg).
  destruct (getitem d (length d - 1)); try discriminate.
  destruct (getitem d 0); try discriminate.
  cbn [rbind] in Hg. injection Hg as <-. cbn.
  split; [exists r0; split; [exact H0|exact Hd]|].
  destruct io; auto 10.
Qed.

(** *** Zero angular velocity *)

Lemma np_any_vscale (w : vec3) (k : num) :
  (forall x k, nonzero x = false -> nonzero (x * k) = false) ->
  np_any w = false -> np_any (vscale w k) = false.
Proof.
  intros Hmul. unfold np_any, vscale. cbn.
  rewrite !orb_false_iff. intros [[Hx Hy] Hz]. auto.
Qed.

Lemma all_zero_scaled input time_scaling gyro_scaling :
  (forall x k, nonzero x = false -> nonzero (x * k) = false) ->
  all_zero input -> all_zero (scaled input time_scaling gyro_scaling).
Proof.
  intros Hmul Hz. unfold scaled, all_zero.
  assert (Ht : all_zero (truncate input)).
  { unfold truncate. destruct (np_any_b _); [apply Forall_take|]; exact Hz. }
  change (Forall (fun r => np_any (s_omega r) = false)
            (flip_y <$> (scale_row time_scaling gyro_scaling <$> truncate input))).
  rewrite !Forall_fmap. eapply Forall_impl; [exact Ht|].
  intros [t w] Hw. cbn in *.
  pose proof (np_any_vscale w gyro_scaling Hmul Hw) as Hs.
  unfold np_any, vscale in *. cbn in *.
  rewrite !orb_false_iff in *. destruct Hs as [[Hx Hy] Hzz]. auto.
Qed.

Lemma all_zero_shift (d : list sample) t0 :
  all_zero d -> all_zero (map (shift_time t0) d).
Proof.
  unfold all_zero. intros H.
  change (Forall (fun r => np_any (s_omega r) = false) (shift_time t0 <$> d)).
  rewrite Forall_fmap. eapply Forall_impl; [exact H|]. intros [t w] Hw. exact Hw.
Qed.

Lemma orientation_after_all_zero (d : list sample) (q0 : quat) :
  all_zero d -> forall i, i < length d -> orientation_after d q0 i = q0.
Proof.
  intros Hz. induction i as [|j IH]; intros Hi;
    destruct (lookup_lt_is_Some_2 d _ Hi) as [row Hrow];
    rewrite (orientation_after_unfold d q0 _ row Hrow); cbv zeta;
    rewrite (proj1 (Forall_lookup _ _) Hz _ _ Hrow).
  - reflexivity.
  - cbn [orientation_before]. apply IH. lia.
Qed.

Lemma map_seq_const {A} (f : nat -> A) (a : A) n :
  (forall i, i < n -> f i = a) -> map f (seq 0 n) = replicate n a.
Proof.
  intros H. apply list_eq. intros i.
  destruct (Nat.lt_ge_cases i n) as [Hi|Hi].
  - rewrite lookup_map_seq by exact Hi.
    rewrite (H i Hi). symmetry. apply lookup_replicate_2. exact Hi.
  - rewrite !lookup_ge_None_2; [reflexivity| |].
    + rewrite length_replicate. exact Hi.
    + rewrite length_map, length_seq. exact Hi.
Qed.

(** *** Truncation at the first decreasing timestamp *)

Lemma np_any_b_false (l : list bool) j b :
  np_any_b l = false -> l !! j = Some b -> b = false.
Proof.
  revert j. induction l as [|c l IH]; intros j Hany Hj; [discriminate|].
  cbn in Hany. apply orb_false_iff in Hany as [-> Hl].
  destruct j as [|j]; [injection Hj as <-; reflexivity|].
  eapply IH; eauto.
Qed.

Lemma argmax_first (l : list bool) :
  np_any_b l = true ->
  l !! argmax l = Some true /\
  forall j, j < argmax l -> l !! j = Some false.
Proof.
  induction l as [|c l IH]; intros Hany; [discriminate|].
  destruct c; cbn [argmax].
  - split; [reflexivity|]. intros j Hj. lia.
  - change (np_any_b l = true) in Hany.
    rewrite Hany. destruct (IH Hany) as [Hk Hlt].
    split; [exact Hk|]. intros [|j] Hj; [reflexivity|].
    apply Hlt. lia.
Qed.

Lemma time_order_check_lookup (d : list sample) i :
  time_order_check d !! i =
    match times d !! i, times d !! S i with
    | Some a, Some b => Some (b <? a)
    | _, _ => None
    end.
Proof.
  unfold time_order_check. rewrite lookup_zip_with.
  change (tl (times d)) with (tail (times d)). rewrite lookup_tail.
  rewrite removelast_firstn_len.
  destruct (times d !! S i) as [b|] eqn:Hb.
  - rewrite lookup_take_lt
      by (apply lookup_lt_Some in Hb; lia).
    destruct (times d !! i); reflexivity.
  - destruct (firstn _ _ !! i), (times d !! i); reflexivity.
Qed.

Lemma times_take (d : list sample) k : times (take k d) = take k (times d).
Proof. unfold times. apply fmap_take. Qed.

(** The kept rows are the whole input when no timestamp decreases, and
    otherwise the prefix that ends, inclusively, at the first index whose
    successor has a smaller timestamp. *)
Lemma truncate_spec (d : list sample) :
  (nondecreasing (times d) /\ truncate d = d) \/
  (exists k a b,
     times d !! k = Some a /\ times d !! S k = Some b /\ (b <? a) = true /\
     nondecreasing (take (S k) (times d)) /\
     truncate d = take (S k) d).
Proof.
  unfold truncate. destruct (np_any_b (time_order_check d)) eqn:Hany.
  - right. destruct (argmax_first _ Hany) as [Hk Hlt].
    set (k := argmax (time_order_check d)) in *.
    rewrite time_order_check_lookup in Hk.
    destruct (times d !! k) as [a|] eqn:Ha; [|discriminate].
    destruct (times d !! S k) as [b|] eqn:Hb; [|discriminate].
    exists k, a, b. split; [exact Ha|]. split; [exact Hb|].
    split; [congruence|]. split.
    + intros i x y Hx Hy.
      apply lookup_take_Some in Hx as [Hx _], Hy as [Hy Hi].
      specialize (Hlt i ltac:(lia)).
      rewrite time_order_check_lookup, Hx, Hy in Hlt. congruence.
    + replace (k + 1)%nat with (S k) by lia. reflexivity.
  - left. split; [|reflexivity]. intros i x y Hx Hy.
    pose proof (time_order_check_lookup d i) as Hc. rewrite Hx, Hy in Hc.
    exact (np_any_b_false _ _ _ Hany Hc).
Qed.

Lemma truncate_nondecreasing (d : list sample) :
  nondecreasing (times (truncate d)).
Proof.
  destruct (truncate_spec d) as [[Hnd ->]|(k & a & b & _ & _ & _ & Hnd & ->)].
  - exact Hnd.
  - rewrite times_take. exact Hnd.
Qed.

Lemma nondecreasing_fmap (f : num -> num) (ts : list num) :
  (forall a b, (b <? a) = false -> (f b <? f a) = false) ->
  nondecreasing ts -> nondecreasing (f <$> ts).
Proof.
  intros Hf Hnd i x y Hx Hy. rewrite list_lookup_fmap in Hx, Hy.
  destruct (ts !! i) as [a|] eqn:Ha; [|discriminate].
  destruct (ts !! S i) as [b|] eqn:Hb; [|discriminate].
  injection Hx as <-. injection Hy as <-. apply Hf. eapply Hnd; eauto.
Qed.

Lemma times_scaled input time_scaling gyro_scaling :
  times (scaled input time_scaling gyro_scaling) =
    (fun t => t * time_scaling) <$> times (truncate input).
Proof.
  unfold scaled, times. rewrite !map_map. reflexivity.
Qed.

Lemma times_shift (d : list sample) t0 :
  times (map (shift_time t0) d) = (fun t => t - t0) <$> times d.
Proof. unfold times. rewrite !map_map. reflexivity. Qed.

Lemma init_nondecreasing input time_scaling gyro_scaling zero_out_time io g :
  (forall a b, (b <? a) = false -> (b * time_scaling <? a * time_scaling) = false) ->
  (forall a b c, (b <? a) = false -> (b - c <? a - c) = false) ->
  init input time_scaling gyro_scaling zero_out_time io = Ok g ->
  nondecreasing (times (data g)) /\
  length (data g) = length (truncate input).
Proof.
  intros Hmul Hsub Hinit.
  destruct (init_ok _ _ _ _ _ _ Hinit) as ((r0 & _ & Hd) & _).
  assert (Hs : nondecreasing (times (scaled input time_scaling gyro_scaling))).
  { rewrite times_scaled. apply nondecreasing_fmap; [exact Hmul|].
    apply truncate_nondecreasing. }
  rewrite Hd. destruct zero_out_time.
  - split.
    + rewrite times_shift. apply nondecreasing_fmap; [|exact Hs].
      intros a b. apply Hsub.
    + unfold scaled. rewrite !length_map. reflexivity.
  - split; [exact Hs|]. unfold scaled. rewrite !length_map. reflexivity.
Qed.

End InitFacts.

(** ** GyroIntegrator: accessors *)

Section AccessorFacts.
Context {N : Num} {L : QuatLib N}.
Variable PlainSlerp : SmoothingAlgo N.
Import GyroIntegrator.
Local Open Scope num_scope.

Lemma get_orientations_cached (s : pystate obj) :
  already_integrated (self s) = true ->
  get_orientations s =
    (Ok (Some (time_list (self s), orientation_list (self s))), s).
Proof.
  intros H. unfold get_orientations, bind, get_self, ret. cbn. rewrite H.
  reflexivity.
Qed.

Lemma get_orientations_pending (s : pystate obj) :
  already_integrated (self s) = false -> get_orientations s = (Ok None, s).
Proof.
  intros H. unfold get_orientations, bind, get_self, ret. cbn. rewrite H.
  reflexivity.
Qed.

Lemma axis_names_other (name : string) :
  name ∉ ["t"; "x"; "y"; "z"; "xyz"] -> axis_names !! name = None.
Proof.
  intros Hn. unfold axis_names.
  rewrite !lookup_insert_ne, lookup_empty; [reflexivity|..];
    intros <-; apply Hn; set_solver.
Qed.

Lemma get_raw_data_select (s : pystate obj) axis idx a :
  (match axis with
   | AxInt k => idx = Col k
   | AxStr name => axis_names !! name = Some idx
   end) ->
  select (data (self s)) idx = Ok a ->
  get_raw_data axis s =
    (Ok (fresh (dom (heap s))),
     PyState (<[fresh (dom (heap s)) := a]> (heap s)) (self s)).
Proof.
  intros Hidx Hsel. unfold get_raw_data, bind, get_self, lift, alloc, ret.
  destruct axis as [k|name].
  - subst idx. cbn [self heap]. rewrite Hsel. reflexivity.
  - rewrite Hidx. cbn [self heap]. rewrite Hsel. reflexivity.
Qed.

Lemma axis_names_keys :
  axis_names !! "t" = Some (Col 0) /\ axis_names !! "x" = Some (Col 1) /\
  axis_names !! "y" = Some (Col 2) /\ axis_names !! "z" = Some (Col 3) /\
  axis_names !! "xyz" = Some Slice_1_4.
Proof. repeat split; vm_compute; reflexivity. Qed.

(** An integer that is no column index goes past the dictionary and fails
    at numpy's indexing. *)
Lemma get_raw_data_out_of_range (s : pystate obj) k :
  (k < -4 \/ 4 <= k)%Z -> get_raw_data (AxInt k) s = (Raise IndexError, s).
Proof.
  intros Hk. unfold get_raw_data, bind, get_self, lift, ret, select.
  cbn [self heap].
  replace ((-4 <=? k)%Z && (k <? 4)%Z) with false; [reflexivity|].
  symmetry. apply andb_false_iff.
  destruct Hk; [left; apply Z.leb_gt|right; apply Z.ltb_ge]; lia.
Qed.

(** C5 (as amended): get_raw_data.  A string that is none of "t", "x", "y",
    "z", "xyz" makes the call fail with the dictionary's KeyError (the
    specification's InvalidArgument) and changes nothing.  Each of the five
    names, and each integer column index (0..3, or -4..-1 counting from the
    end), returns a reference to a new array object, absent from the store
    before the call, that holds the selected column(s) of the stored data;
    the instance and every other array object are left as they were.  Any
    other integer is not treated as an unknown key: the call fails with
    IndexError and changes nothing. *)
Theorem get_raw_data_copy_or_key_error (s : pystate obj) :
  let d := data (self s) in
  let l := fresh (dom (heap s)) in
  let copy a := (Ok l, PyState (<[l := a]> (heap s)) (self s)) in
  heap s !! l = None /\
  (forall name, name ∉ ["t"; "x"; "y"; "z"; "xyz"] ->
     get_raw_data (AxStr name) s = (Raise KeyError, s)) /\
  get_raw_data (AxStr "t") s = copy (A1 (map s_time d)) /\
  get_raw_data (AxStr "x") s = copy (A1 (map (fun r => vx (s_omega r)) d)) /\
  get_raw_data (AxStr "y") s = copy (A1 (map (fun r => vy (s_omega r)) d)) /\
  get_raw_data (AxStr "z") s = copy (A1 (map (fun r => vz (s_omega r)) d)) /\
  get_raw_data (AxStr "xyz") s = copy (A3 (map s_omega d)) /\
  (forall k, (-4 <= k < 4)%Z ->
     get_raw_data (AxInt k) s =
       copy (A1 (map (column (Z.to_nat (k mod 4))) d))) /\
  (forall k, (k < -4 \/ 4 <= k)%Z ->
     get_raw_data (AxInt k) s = (Raise IndexError, s)).
Proof.
  intros d l copy.
  destruct axis_names_keys as (Ht & Hx & Hy & Hz & Hxyz).
  split; [apply fresh_lookup|].
  split.
  { intros name Hname.
    unfold get_raw_data, bind, raise. rewrite (axis_names_other name Hname).
    reflexivity. }
  subst copy l d. cbv beta.
  split; [exact (get_raw_data_select s (AxStr "t") (Col 0) _ Ht eq_refl)|].
  split; [exact (get_raw_data_select s (AxStr "x") (Col 1) _ Hx eq_refl)|].
  split; [exact (get_raw_data_select s (AxStr "y") (Col 2) _ Hy eq_refl)|].
  split; [exact (get_raw_data_select s (AxStr "z") (Col 3) _ Hz eq_refl)|].
  split; [exact (get_raw_data_select s (AxStr "xyz") Slice_1_4 _ Hxyz eq_refl)|].
  split; [|intros k Hk; apply get_raw_data_out_of_range, Hk].
  intros k Hk.
  apply (get_raw_data_select s (AxInt k) (Col k)); [reflexivity|].
  unfold select.
  replace ((-4 <=? k)%Z && (k <? 4)%Z) with true; [reflexivity|].
  symmetry. apply andb_true_iff. split; [apply Z.leb_le|apply Z.ltb_lt]; lia.
Qed.

(** Whatever [get_raw_data] returns is a reference the store did not hold
    before, and the call changes nothing else. *)
Lemma get_raw_data_fresh (s s1 : pystate obj) axis l :
  get_raw_data axis s = (Ok l, s1) ->
  heap s !! l = None /\ self s1 = self s /\
  forall l', l' <> l -> heap s1 !! l' = heap s !! l'.
Proof.
  intros H.
  assert (Hsel : exists idx a,
            select (data (self s)) idx = Ok a /\
            (Ok l, s1) =
              (Ok (fresh (dom (heap s))),
               PyState (<[fresh (dom (heap s)) := a]> (heap s)) (self s))).
  { revert H. unfold get_raw_data, bind, get_self, lift, alloc, ret, raise.
    destruct axis as [k|name]; [|destruct (axis_names !! name) as [idx|]];
      cbn [self heap]; try discriminate;
      match goal with
      | |- context [select ?d ?i] =>
          destruct (select d i) as [a| |] eqn:Hs; try discriminate;
          intros H; exists i, a; split; [exact Hs|symmetry; exact H]
      end. }
  destruct Hsel as (idx & a & _ & Heq). injection Heq as -> ->.
  cbn [self heap].
  split; [apply fresh_lookup|]. split; [reflexivity|].
  intros l' Hne. apply lookup_insert_ne. congruence.
Qed.

(** C2 (as amended): which accessors copy.  On an integrated instance
    get_orientations and integrate_all return the references held in
    [time_list] and [orientation_list] themselves, so an in-place write
    through either reference is what every later read returns.  Only
    get_raw_data returns a new array object: writing through its result
    leaves the instance and all arrays the store held untouched. *)
Theorem cached_arrays_are_shared (s : pystate obj) (lt lo : loc) :
  already_integrated (self s) = true ->
  time_list (self s) = Some lt ->
  orientation_list (self s) = Some lo ->
  get_orientations s = (Ok (Some (Some lt, Some lo)), s) /\
  integrate_all s = (Ok (Some lt, Some lo), s) /\
  (forall l a, l = lt \/ l = lo ->
     exists s', mutate l a s = (Ok tt, s') /\
       get_orientations s' = (Ok (Some (Some lt, Some lo)), s') /\
       integrate_all s' = (Ok (Some lt, Some lo), s') /\
       heap s' !! l = Some a) /\
  (forall axis l s1 a, get_raw_data axis s = (Ok l, s1) ->
     exists s2, mutate l a s1 = (Ok tt, s2) /\
       self s2 = self s /\
       forall l', heap s !! l' <> None -> heap s2 !! l' = heap s !! l').
Proof.
  intros Hint Ht Ho.
  split; [rewrite (get_orientations_cached s Hint), Ht, Ho; reflexivity|].
  split; [rewrite (integrate_all_cached s Hint), Ht, Ho; reflexivity|].
  split.
  - intros l a _. eexists. split; [reflexivity|]. cbn [self heap].
    split; [|split].
    + rewrite get_orientations_cached by exact Hint. cbn [self].
      rewrite Ht, Ho. reflexivity.
    + rewrite integrate_all_cached by exact Hint. cbn [self].
      rewrite Ht, Ho. reflexivity.
    + apply lookup_insert_eq.
  - intros axis l s1 a Hraw.
    destruct (get_raw_data_fresh s s1 axis l Hraw) as (Hfresh & Hself & Hother).
    eexists. split; [reflexivity|]. cbn [self heap].
    split; [exact Hself|]. intros l' Hl'.
    assert (l' <> l) by congruence.
    rewrite lookup_insert_ne by congruence. apply Hother. assumption.
Qed.

(** *** Before integration *)

Lemma bind_not_ok {O A B} (m : M O A) (k : A -> M O B) (s : pystate O) :
  is_ok (fst (m s)) = false -> is_ok (fst (bind m k s)) = false.
Proof.
  unfold bind. destruct (m s) as [[a|e|] s1]; cbn; congruence.
Qed.

Lemma get_smoothed_orientation_run (s : pystate obj) :
  exists s1,
    get_smoothed_orientation PlainSlerp s =
      (get_smooth_orientations (current_algo PlainSlerp (self s))
         (as_A1 (time_list (self s) ≫= fun l => heap s !! l))
         (as_A4 (orientation_list (self s) ≫= fun l => heap s !! l)), s1) /\
    heap s1 = heap s /\
    self s1 = match smoothing_algo (self s) with
              | Some _ => self s
              | None => with_smoothing_algo (self s) (Some PlainSlerp)
              end.
Proof.
  unfold get_smoothed_orientation, current_algo, bind, get_self, lift, ret,
    put_self, contents.
  cbn [self heap].
  destruct (smoothing_algo (self s)) as [a|]; cbn [default self heap];
    destruct (time_list (self s)), (orientation_list (self s));
    cbn [mbind option_bind]; eexists; (split; [reflexivity|]);
    cbn [self heap]; split; try reflexivity; destruct s; reflexivity.
Qed.

(** C10: before integration.  On an instance that has not been integrated
    get_orientations returns None and changes nothing, as claimed, but
    get_stabilize_transform does not return: whatever the smoothing
    strategy answers for the two None arguments, the next statement reads
    [.shape] of [None] and raises AttributeError.  The same failure
    reaches get_interpolated_stab_transform when the strategy does not
    bypass. *)
Theorem accessors_before_integration (s : pystate obj) :
  already_integrated (self s) = false ->
  orientation_list (self s) = None ->
  get_orientations s = (Ok None, s) /\
  is_ok (fst (get_stabilize_transform PlainSlerp s)) = false /\
  (is_ok (get_smooth_orientations (current_algo PlainSlerp (self s))
            (as_A1 (time_list (self s) ≫= fun l => heap s !! l)) None) = true ->
   fst (get_stabilize_transform PlainSlerp s) = Raise AttributeError) /\
  (bypass_external_processing (current_algo PlainSlerp (self s)) = false ->
   forall fuel start interval,
     is_ok (fst (get_interpolated_stab_transform PlainSlerp fuel start interval s))
       = false).
Proof.
  intros Hint Hol.
  split; [apply get_orientations_pending; exact Hint|].
  destruct (get_smoothed_orientation_run s) as (s1 & Hrun & Hheap & Hself).
  rewrite Hol in Hrun. cbn [mbind option_bind as_A4] in Hrun.
  assert (Hol1 : orientation_list (self s1) = None).
  { rewrite Hself. destruct (smoothing_algo (self s)); exact Hol. }
  assert (Hstab : fst (get_stabilize_transform PlainSlerp s) =
            match get_smooth_orientations (current_algo PlainSlerp (self s))
                    (as_A1 (time_list (self s) ≫= fun l => heap s !! l)) None with
            | Ok _ => Raise AttributeError
            | Raise e => Raise e
            | OutOfFuel => OutOfFuel
            end).
  { unfold get_stabilize_transform, bind. rewrite Hrun.
    destruct (get_smooth_orientations _ _ _); try reflexivity.
    unfold orientation_rows, bind, get_self, raise. cbn [self].
    rewrite Hol1. reflexivity. }
  assert (Hnok : is_ok (fst (get_stabilize_transform PlainSlerp s)) = false).
  { rewrite Hstab. destruct (get_smooth_orientations _ _ _); reflexivity. }
  split; [exact Hnok|]. split.
  - rewrite Hstab. destruct (get_smooth_orientations _ _ _); try discriminate.
    reflexivity.
  - intros Hby fuel start interval.
    assert (Hsa : is_ok (fst (stab_arrays PlainSlerp s)) = false).
    { unfold stab_arrays. apply bind_not_ok. exact Hnok. }
    unfold get_interpolated_stab_transform. unfold bind at 1, get_self.
    cbn [self]. unfold current_algo in Hby.
    destruct (smoothing_algo (self s)) as [a|]; cbn in Hby;
      rewrite ?Hby; apply bind_not_ok; exact Hsa.
Qed.
End AccessorFacts.


(** ** GyroIntegrator: resampling *)

Section ResampleFacts.
Context {N : Num} {L : QuatLib N}.
Variable PlainSlerp : SmoothingAlgo N.
Import GyroIntegrator.
Local Open Scope num_scope.

(** Once the pair [(time_list, stab_rotations)] has been obtained without
    bypass, the method is the resampling loops run on it. *)
Lemma get_interpolated_by_resample (s s1 : pystate obj) tl so fuel start interval :
  bypass_external_processing (current_algo PlainSlerp (self s)) = false ->
  stab_arrays PlainSlerp s = (Ok (tl, so), s1) ->
  get_interpolated_stab_transform PlainSlerp fuel start interval s =
    (resample fuel tl so start interval, s1).
Proof.
  intros Hby Hsa.
  unfold get_interpolated_stab_transform. unfold bind at 1, get_self.
  cbn [self]. unfold current_algo in Hby.
  destruct (smoothing_algo (self s)) as [a|]; cbn in Hby; rewrite ?Hby;
    unfold bind, lift; rewrite Hsa; reflexivity.
Qed.

Lemma getitem_Ok {A} (l : list A) i a : getitem l i = Ok a -> l !! i = Some a.
Proof. unfold getitem. destruct (l !! i); congruence. Qed.

Section Bound.
Variable m : num.
Variables (tl : list num) (so : list quat) (interval : num).
Hypothesis lt_le_not_gt :
  forall a b c, (a <? b) = true -> (b <=? c) = true -> (c <? a) = false.
Hypothesis le_le_not_gt :
  forall a b c, (a <=? b) = true -> (b <=? c) = true -> (c <? a) = false.
Hypothesis tl_below : Forall (fun t => (t <=? m) = true) tl.
Hypothesis zero_below : (lit 0 <=? m) = true.

Local Abbreviation within := (within m).

Lemma within_emit r (st : rs_state) :
  within st -> (m <? fst (fst st)) = false -> within (emit interval r st).
Proof.
  destruct st as [[time out] rots]. unfold within, emit. cbn.
  intros Hout Ht. apply Forall_app. split; [exact Hout|].
  constructor; [exact Ht|constructor].
Qed.

Lemma tl_lookup_below i t : tl !! i = Some t -> (t <=? m) = true.
Proof. intros H. exact (proj1 (Forall_lookup _ _) tl_below i t H). Qed.

Lemma within_before_zero fuel st st' :
  within st ->
  while_r fuel before_zero (emit_first so interval) st = Ok st' -> within st'.
Proof.
  apply while_r_inv. clear st st'. intros st st' Hin Hc Hb.
  unfold before_zero in Hc. injection Hc as Hc.
  unfold emit_first in Hb. destruct (getitem so 0); try discriminate.
  injection Hb as <-. apply within_emit; [exact Hin|].
  eapply lt_le_not_gt; eauto.
Qed.

Lemma within_before_first fuel st st' :
  within st ->
  while_r fuel (before_first tl) (emit_first so interval) st = Ok st' ->
  within st'.
Proof.
  apply while_r_inv. clear st st'. intros st st' Hin Hc Hb.
  unfold before_first in Hc.
  destruct (getitem tl 0) as [t0| |] eqn:H0; try discriminate.
  injection Hc as Hc. apply getitem_Ok in H0.
  unfold emit_first in Hb. destruct (getitem so 0); try discriminate.
  injection Hb as <-. apply within_emit; [exact Hin|].
  eapply le_le_not_gt; [exact Hc|]. eapply tl_lookup_below; eauto.
Qed.

Lemma within_interval_step fuel i st st' :
  within st -> interval_step fuel tl so interval i st = Ok st' -> within st'.
Proof.
  unfold interval_step. intros Hin Hrun.
  destruct (while_r fuel (in_interval tl i) (emit_slerp tl so interval i) st)
    as [st1| |] eqn:Hw; try discriminate.
  cbn [rbind] in Hrun.
  assert (Hin1 : within st1).
  { revert Hw. apply while_r_inv; [|exact Hin].
    clear Hrun Hin. intros st0 st0' Hin0 Hc Hb.
    unfold in_interval in Hc.
    destruct (getitem tl i) as [ti| |] eqn:Hi; try discriminate.
    cbn [rbind] in Hc. destruct (ti <=? fst (fst st0)); [|discriminate].
    destruct (getitem tl (i + 1)) as [tj| |] eqn:Hj; try discriminate.
    injection Hc as Hc. apply getitem_Ok in Hj.
    unfold emit_slerp in Hb. rewrite Hi in Hb. cbn [rbind] in Hb.
    destruct (getitem tl (i + 1)); try discriminate. cbn [rbind] in Hb.
    destruct (getitem so i); try discriminate. cbn [rbind] in Hb.
    destruct (getitem so (i + 1)); try discriminate.
    injection Hb as <-. apply within_emit; [exact Hin0|].
    eapply lt_le_not_gt; [exact Hc|]. eapply tl_lookup_below; eauto. }
  destruct (getitem tl i) as [ti| |] eqn:Hi; try discriminate.
  cbn [rbind] in Hrun. apply getitem_Ok in Hi.
  destruct (fst (fst st1) <? ti) eqn:Hlt.
  - destruct (getitem so i); try discriminate. injection Hrun as <-.
    apply within_emit; [exact Hin1|].
    eapply lt_le_not_gt; [exact Hlt|]. eapply tl_lookup_below; eauto.
  - injection Hrun as <-. exact Hin1.
Qed.

(** Every output time of a completed resampling is at most [m]. *)
Lemma resample_within fuel start out rots :
  resample fuel tl so start interval = Ok (out, rots) ->
  Forall (fun t => (m <? t) = false) out.
Proof.
  unfold resample. intros Hrun.
  destruct (while_r fuel before_zero _ _) as [st1| |] eqn:H1; try discriminate.
  cbn [rbind] in Hrun.
  destruct (while_r fuel (before_first tl) _ _) as [st2| |] eqn:H2;
    try discriminate.
  cbn [rbind] in Hrun.
  destruct (for_range_r _ _ _ _) as [st3| |] eqn:H3; try discriminate.
  injection Hrun as <- _.
  assert (Hin1 : within st1).
  { eapply within_before_zero; [|exact H1]. constructor. }
  assert (Hin2 : within st2) by (eapply within_before_first; eauto).
  revert H3. apply (for_range_r_inv within); [|exact Hin2].
  intros i st st' Hin Hs. eapply within_interval_step; eauto.
Qed.
End Bound.
End ResampleFacts.

(** ** Runs on the rationals *)

Section RationalRuns.
Import QNum GyroIntegrator.
Local Open Scope Q_scope.

Lemma Q_lt_le_not_gt (a b c : Q) :
  nlt a b = true -> nle b c = true -> nlt c a = false.
Proof.
  cbn. rewrite negb_true_iff, negb_false_iff.
  intros Hab Hbc. apply Qle_bool_iff in Hbc. apply Qle_bool_iff.
  destruct (Qlt_le_dec a b) as [Hlt|Hle].
  - Lqa.lra.
  - apply Qle_bool_iff in Hle. congruence.
Qed.

Lemma Q_le_le_not_gt (a b c : Q) :
  nle a b = true -> nle b c = true -> nlt c a = false.
Proof.
  cbn. rewrite negb_false_iff. rewrite !Qle_bool_iff. intros. Lqa.lra.
Qed.

Lemma Q_zero_mul (x k : Q) : nonzero x = false -> nonzero (nmul x k) = false.
Proof.
  cbn. rewrite !negb_false_iff, !Qeq_bool_iff. intros Hx.
  rewrite Qred_correct, Hx. Lqa.lra.
Qed.

Lemma Q_scale_monotone (k a b : Q) :
  0 <= k -> nlt b a = false -> nlt (nmul b k) (nmul a k) = false.
Proof.
  cbn. rewrite !negb_false_iff, !Qle_bool_iff, !Qred_correct. intros Hk Hab.
  apply Qmult_le_compat_r; assumption.
Qed.

Lemma Q_shift_monotone (a b c : Q) :
  nlt b a = false -> nlt (nsub b c) (nsub a c) = false.
Proof.
  cbn. rewrite !negb_false_iff, !Qle_bool_iff, !Qred_correct. intros. Lqa.lra.
Qed.

Lemma init_rows_012 : init rows_012 1 1 true None = Ok g_012.
Proof. reflexivity. Qed.

Lemma integrate_s_012 :
  integrate_all (PyState ∅ g_012) = (Ok (Some 2%positive, Some 1%positive), s_012).
Proof. reflexivity. Qed.

Lemma stab_arrays_s_012 :
  stab_arrays keep_track s_012 =
    (Ok ([0; 1; 2], [q_012; q_012; q_012]), snd (stab_arrays keep_track s_012)).
Proof.
  rewrite (surjective_pairing (stab_arrays keep_track s_012)) at 1.
  f_equal; reflexivity.
Qed.

Context {L : QuatLib Q_Num}.

Lemma resample_example_from_zero (r0 r1 r2 : @quat Q_Num) fuel :
  (3 <= fuel)%nat ->
  resample fuel [0; 1; 2] [r0; r1; r2] 0 (1 # 2) =
    Ok ([0; 1 # 2; 1; 3 # 2],
        [Row r0; Slerped (slerp r0 r1 [1 # 2]); Slerped (slerp r1 r2 [0]);
         Slerped (slerp r1 r2 [1 # 2])]).
Proof.
  intros Hf. destruct fuel as [|[|[|f]]]; try lia. reflexivity.
Qed.

Lemma resample_example_from_minus_one (r0 r1 r2 : @quat Q_Num) fuel :
  (3 <= fuel)%nat ->
  resample fuel [0; 1; 2] [r0; r1; r2] (-1) (1 # 2) =
    Ok ([-1; -1 # 2; 0; 1 # 2; 1; 3 # 2],
        [Row r0; Row r0; Row r0; Slerped (slerp r0 r1 [1 # 2]);
         Slerped (slerp r1 r2 [0]); Slerped (slerp r1 r2 [1 # 2])]).
Proof.
  intros Hf. destruct fuel as [|[|[|f]]]; try lia. reflexivity.
Qed.
End RationalRuns.

(** C1 (as amended): the resampling grid.  With time_list = [0, 1, 2] and
    interval 0.5, start = 0 gives the output times [0, 0.5, 1, 1.5]: the
    intervals are half-open, so the last input timestamp 2 is itself not
    produced.  With start = -1 the outputs before the first timestamp (three
    of them, at -1, -0.5 and 0) are the first stabilising rotation unchanged.
    In general, when no timestamp exceeds the last one and the last one is
    not negative, no output time lies beyond the last input timestamp.  The
    numbers are only assumed to order transitively. *)
Theorem resample_grid_within_input_range :
  (forall (L : QuatLib QNum.Q_Num) (P : SmoothingAlgo QNum.Q_Num)
      (s s1 : pystate GyroIntegrator.obj) (r0 r1 r2 : @quat QNum.Q_Num) fuel,
     bypass_external_processing
       (GyroIntegrator.current_algo P (self s)) = false ->
     GyroIntegrator.stab_arrays P s = (Ok ([0; 1; 2], [r0; r1; r2]), s1)%Q ->
     3 <= fuel ->
     GyroIntegrator.get_interpolated_stab_transform P fuel 0%Q (1 # 2)%Q s =
       (Ok ([0; 1 # 2; 1; 3 # 2]%Q,
            [Row r0; Slerped (slerp r0 r1 [(1 # 2)%Q]);
             Slerped (slerp r1 r2 [0%Q]); Slerped (slerp r1 r2 [(1 # 2)%Q])]),
        s1) /\
     GyroIntegrator.get_interpolated_stab_transform P fuel (-1)%Q (1 # 2)%Q s =
       (Ok ([-1; -1 # 2; 0; 1 # 2; 1; 3 # 2]%Q,
            [Row r0; Row r0; Row r0; Slerped (slerp r0 r1 [(1 # 2)%Q]);
             Slerped (slerp r1 r2 [0%Q]); Slerped (slerp r1 r2 [(1 # 2)%Q])]),
        s1)) /\
  (forall (N : Num) (L : QuatLib N) (P : SmoothingAlgo N)
      (s s1 : pystate GyroIntegrator.obj) tl so m fuel start interval out rots,
     (forall a b c, nlt a b = true -> nle b c = true -> nlt c a = false) ->
     (forall a b c, nle a b = true -> nle b c = true -> nlt c a = false) ->
     bypass_external_processing
       (GyroIntegrator.current_algo P (self s)) = false ->
     GyroIntegrator.stab_arrays P s = (Ok (tl, so), s1) ->
     last tl = Some m ->
     Forall (fun t => nle t m = true) tl ->
     nle (lit 0) m = true ->
     fst (GyroIntegrator.get_interpolated_stab_transform P fuel start interval s)
       = Ok (out, rots) ->
     Forall (fun t => nlt m t = false) out).
Proof.
  split.
  - intros L P s s1 r0 r1 r2 fuel Hby Hsa Hf.
    rewrite !(get_interpolated_by_resample P s s1 _ _ _ _ _ Hby Hsa).
    rewrite (resample_example_from_zero r0 r1 r2 fuel Hf).
    rewrite (resample_example_from_minus_one r0 r1 r2 fuel Hf).
    split; reflexivity.
  - intros N L P s s1 tl so m fuel start interval out rots
      Hlt Hle Hby Hsa _ Htl Hm Hrun.
    rewrite (get_interpolated_by_resample P s s1 _ _ _ _ _ Hby Hsa) in Hrun.
    cbn [fst] in Hrun.
    exact (resample_within m tl so interval Hlt Hle Htl Hm fuel start out rots Hrun).
Qed.


Section ResampleRuns.
Import QNum.
Local Open Scope Q_scope.

(** A run of C1's theorem on the integrated track [s_012], resampled from 0
    and from -1 in steps of 1/2 with the strategy [keep_track]. *)
Lemma resample_grid_witness :
  GyroIntegrator.get_interpolated_stab_transform keep_track 3 0 (1 # 2) s_012 =
    (Ok ([0; 1 # 2; 1; 3 # 2],
         [Row q_012; Slerped (slerp q_012 q_012 [1 # 2]);
          Slerped (slerp q_012 q_012 [0]); Slerped (slerp q_012 q_012 [1 # 2])]),
     snd (GyroIntegrator.stab_arrays keep_track s_012)) /\
  GyroIntegrator.get_interpolated_stab_transform keep_track 3 (-1) (1 # 2) s_012 =
    (Ok ([-1; -1 # 2; 0; 1 # 2; 1; 3 # 2],
         [Row q_012; Row q_012; Row q_012; Slerped (slerp q_012 q_012 [1 # 2]);
          Slerped (slerp q_012 q_012 [0]); Slerped (slerp q_012 q_012 [1 # 2])]),
     snd (GyroIntegrator.stab_arrays keep_track s_012)) /\
  Forall (fun t : Q => @nlt Q_Num 2 t = false) [-1; -1 # 2; 0; 1 # 2; 1; 3 # 2].
Proof.
  destruct (proj1 resample_grid_within_input_range Q_QuatLib keep_track
              s_012 _ q_012 q_012 q_012 3%nat eq_refl stab_arrays_s_012
              (le_n 3)) as [H0 H1].
  split; [exact H0|]. split; [exact H1|].
  eapply (proj2 resample_grid_within_input_range Q_Num Q_QuatLib keep_track
            s_012 _ [0; 1; 2] [q_012; q_012; q_012] 2 3%nat (-1) (1 # 2)).
  - exact Q_lt_le_not_gt.
  - exact Q_le_le_not_gt.
  - reflexivity.
  - exact stab_arrays_s_012.
  - reflexivity.
  - repeat constructor.
  - reflexivity.
  - rewrite H1. reflexivity.
Defined.

(** C1 as stated fails: on the track with timestamps [0, 1, 2] the output
    times from start 0 in steps of 1/2 are [0, 1/2, 1, 3/2]; the claimed
    fifth output time 2 is not produced. *)
Lemma resample_omits_last_timestamp :
  exists rots,
    fst (GyroIntegrator.get_interpolated_stab_transform
           keep_track 10 0 (1 # 2) s_012) = Ok ([0; 1 # 2; 1; 3 # 2], rots) /\
    [0; 1 # 2; 1; 3 # 2] <> [0; 1 # 2; 1; 3 # 2; 2].
Proof.
  eexists. split; [reflexivity|discriminate].
Qed.
End ResampleRuns.

(** ** The constructor's truncation (C4) *)

(** C4 (as amended): truncation at the first decreasing timestamp.  The
    input timestamps [0, 1, 2, 1.5, 3] are cut to [0, 1, 2].  For every
    input, the constructor keeps the whole input when no timestamp is
    followed by a smaller one, and otherwise the prefix that ends,
    inclusively, at the first index whose successor is smaller; in the
    stored data no timestamp is followed by a smaller one.  The stored
    sequence is non-decreasing, not strictly increasing: equal neighbours
    are kept.  The numbers are assumed to keep their order under the
    scaling by [time_scaling] (as for a non-negative factor) and under the
    subtraction of the first timestamp. *)
Theorem init_truncates_to_nondecreasing :
  (GyroIntegrator.times (GyroIntegrator.truncate QNum.rows_back) = [0; 1; 2]%Q /\
   rbind (GyroIntegrator.init QNum.rows_back 1%Q 1%Q true None)
     (fun g => Ok (GyroIntegrator.times (GyroIntegrator.data g)))
     = Ok [0; 1; 2]%Q) /\
  (forall (N : Num) input time_scaling gyro_scaling zero_out_time io g,
     (forall a b, nlt b a = false ->
        nlt (nmul b time_scaling) (nmul a time_scaling) = false) ->
     (forall a b c, nlt b a = false -> nlt (nsub b c) (nsub a c) = false) ->
     GyroIntegrator.init input time_scaling gyro_scaling zero_out_time io
       = Ok g ->
     nondecreasing (GyroIntegrator.times (GyroIntegrator.data g)) /\
     length (GyroIntegrator.data g) =
       length (GyroIntegrator.truncate input) /\
     ((nondecreasing (GyroIntegrator.times input) /\
       GyroIntegrator.truncate input = input) \/
      (exists k a b,
         GyroIntegrator.times input !! k = Some a /\
         GyroIntegrator.times input !! S k = Some b /\
         nlt b a = true /\
         nondecreasing (take (S k) (GyroIntegrator.times input)) /\
         GyroIntegrator.truncate input = take (S k) input))).
Proof.
  split; [split; reflexivity|].
  intros N input time_scaling gyro_scaling zero_out_time io g Hmul Hsub Hinit.
  destruct (init_nondecreasing _ _ _ _ _ _ Hmul Hsub Hinit) as [Hnd Hlen].
  split; [exact Hnd|]. split; [exact Hlen|]. apply truncate_spec.
Qed.

Section RationalWitnesses.
Import QNum GyroIntegrator.
Local Open Scope Q_scope.

Lemma init_rows_back :
  init rows_back 1 1 true None =
    Ok (Obj [Sample 0 (Vec3 1 0 0); Sample 1 (Vec3 0 (-1) 0); Sample 2 (Vec3 0 0 1)]
          3%nat (3 # 2) default_orientation None None (Vec3 1 0 0) (Vec3 0 0 1)
          false None).
Proof. reflexivity. Qed.

(** A run of C4's theorem on [rows_back]. *)
Lemma init_truncates_witness :
  exists g,
    init rows_back 1 1 true None = Ok g /\
    nondecreasing (times (data g)) /\ length (data g) = 3%nat.
Proof.
  eexists. split; [exact init_rows_back|].
  assert (H01 : 0 <= 1) by Lqa.lra.
  destruct (proj2 init_truncates_to_nondecreasing Q_Num rows_back 1 1 true None _
              (fun a b => Q_scale_monotone 1 a b H01) Q_shift_monotone
              init_rows_back) as (Hnd & Hlen & _).
  split; [exact Hnd|]. rewrite Hlen. reflexivity.
Defined.

(** C4 as stated fails: a repeated timestamp is kept, so the stored
    sequence [0, 1, 1, 2] is not strictly increasing; and with a negative
    [time_scaling] the stored timestamps of [rows_012] decrease. *)
Lemma init_keeps_repeated_timestamp :
  rbind (init rows_repeat 1 1 true None) (fun g => Ok (times (data g)))
    = Ok [0; 1; 1; 2] /\
  ~ strictly_increasing (N := Q_Num) [0; 1; 1; 2] /\
  rbind (init rows_012 (-1) 1 true None) (fun g => Ok (times (data g)))
    = Ok [0; -1; -2] /\
  ~ nondecreasing (N := Q_Num) [0; -1; -2].
Proof.
  split; [reflexivity|]. split.
  { intros H. specialize (H 1%nat 1 1 eq_refl eq_refl). discriminate. }
  split; [reflexivity|].
  intros H. specialize (H 0%nat 0 (-1) eq_refl eq_refl). discriminate.
Qed.

(** ** Zero input (C3) *)



(** ** Integration (C7, C8) *)

Lemma integrate_s_012_again :
  integrate_all s_012 = (Ok (Some 2%positive, Some 1%positive), s_012).
Proof. reflexivity. Qed.

(** A run of C8's theorem on the instance [g_012]: the first call stores
    the timestamps and the three held orientations in two new arrays, and
    the second call returns the same two references. *)
Lemma integrate_all_idempotent_witness :
  exists lt lo s',
    integrate_all (PyState ∅ g_012) = (Ok (Some lt, Some lo), s') /\
    heap s' !! lt = Some (A1 [0; 1; 2]) /\
    heap s' !! lo = Some (A4 (replicate 3 default_orientation)) /\
    time_list (self s') = Some lt /\ orientation_list (self s') = Some lo /\
    integrate_all s' = (Ok (Some lt, Some lo), s').
Proof.
  destruct (integrate_all_idempotent (PyState ∅ g_012) eq_refl)
    as (lt & lo & s' & Hrun & _ & Ht & Ho & Hfirst & _ & Hagain & _).
  destruct (Hfirst eq_refl)
    as (l_t & l_o & -> & -> & _ & _ & _ & Hlt & Hlo).
  exists l_t, l_o, s'.
  split; [exact Hrun|]. split; [exact Hlt|]. split; [exact Hlo|].
  split; [exact Ht|]. split; [exact Ho|exact Hagain].
Defined.

(** A run of C7's theorem on [g_turn]: sample 0 turns with the one-sided
    step (1 - 0)/2, sample 1 carries no rotation and holds the orientation,
    sample 2 turns with the one-sided step (3 - 1)/2. *)
Lemma integrate_all_step_witness :
  exists lt lo s' ts qs q_a q_b,
    integrate_all (PyState ∅ g_turn) = (Ok (Some lt, Some lo), s') /\
    heap s' !! lt = Some (A1 ts) /\ heap s' !! lo = Some (A4 qs) /\
    ts !! 0%nat = Some 0 /\ ts !! 1%nat = Some 1 /\ ts !! 2%nat = Some 3 /\
    qs !! 0%nat = Some q_a /\ qs !! 1%nat = Some q_a /\ qs !! 2%nat = Some q_b /\
    q_a = normalize (quaternion_multiply (Quat 1 0 0 0)
                       (rate_to_quat (Vec3 0 0 1) (1 # 2))) /\
    q_b = normalize (quaternion_multiply q_a (rate_to_quat (Vec3 1 0 0) 1)).
Proof.
  destruct (integrate_all_symmetric_step (PyState ∅ g_turn) eq_refl eq_refl)
    as (lt & lo & s' & ts & qs & Hrun & Hlt & Hlo & _ & _ & Hstep).
  destruct (Hstep 0%nat _ eq_refl) as [Ht0 Hq0].
  destruct (Hstep 1%nat _ eq_refl) as [Ht1 Hq1].
  destruct (Hstep 2%nat _ eq_refl) as [Ht2 Hq2].
  set (q_a := normalize (quaternion_multiply (@Quat Q_Num 1 0 0 0)
                           (rate_to_quat (@Vec3 Q_Num 0 0 1) (1 # 2)))).
  set (q_b := normalize (quaternion_multiply q_a (rate_to_quat (@Vec3 Q_Num 1 0 0) 1))).
  change (qs !! 0%nat = Some q_a) in Hq0.
  change (qs !! 1%nat = Some (default (@Quat Q_Num 1 0 0 0) (qs !! 0%nat))) in Hq1.
  rewrite Hq0 in Hq1. change (qs !! 1%nat = Some q_a) in Hq1.
  change (qs !! 2%nat =
          Some (normalize (quaternion_multiply
                  (default (@Quat Q_Num 1 0 0 0) (qs !! 1%nat))
                  (rate_to_quat (@Vec3 Q_Num 1 0 0) 1)))) in Hq2.
  rewrite Hq1 in Hq2. change (qs !! 2%nat = Some q_b) in Hq2.
  exists lt, lo, s', ts, qs, q_a, q_b.
  split; [exact Hrun|]. split; [exact Hlt|]. split; [exact Hlo|].
  split; [exact Ht0|]. split; [exact Ht1|]. split; [exact Ht2|].
  split; [exact Hq0|]. split; [exact Hq1|]. split; [exact Hq2|].
  split; reflexivity.
Defined.

(** ** Accessors (C2, C5, C10) *)

(** A run of C5's theorem on [s_012]: an unknown name raises KeyError, the
    name "t" and the index -1 each return the new array number 3, and the
    index -5 raises IndexError. *)
Lemma get_raw_data_witness :
  ("w" ∉ ["t"; "x"; "y"; "z"; "xyz"]) /\
  get_raw_data (AxStr "w") s_012 = (Raise KeyError, s_012) /\
  get_raw_data (AxStr "t") s_012 =
    (Ok 3%positive,
     PyState (<[3%positive := A1 [0; 1; 2]]> (heap s_012)) (self s_012)) /\
  (-4 <= -1 < 4)%Z /\
  get_raw_data (AxInt (-1)) s_012 =
    (Ok 3%positive,
     PyState (<[3%positive := A1 [0; 0; 0]]> (heap s_012)) (self s_012)) /\
  (-5 < -4 \/ 4 <= -5)%Z /\
  get_raw_data (AxInt (-5)) s_012 = (Raise IndexError, s_012).
Proof.
  assert (Hw : "w" ∉ ["t"; "x"; "y"; "z"; "xyz"]).
  { rewrite !not_elem_of_cons. repeat split; try discriminate.
    apply not_elem_of_nil. }
  assert (Hk : (-4 <= -1 < 4)%Z) by lia.
  assert (Ho : (-5 < -4 \/ 4 <= -5)%Z) by lia.
  destruct (get_raw_data_copy_or_key_error s_012)
    as (_ & Hkey & Ht & _ & _ & _ & _ & Hint & Hout).
  split; [exact Hw|]. split; [exact (Hkey "w" Hw)|].
  split; [exact Ht|]. split; [exact Hk|]. split; [exact (Hint (-1)%Z Hk)|].
  split; [exact Ho|exact (Hout (-5)%Z Ho)].
Defined.

(** C5 as stated fails: 4 is an integer index, which the claim counts among
    the recognized keys, yet on [s_012] get_raw_data(4) returns no copy.
    numpy raises IndexError for a column beyond the four, which is not the
    KeyError of an unknown name either. *)
Lemma get_raw_data_column_out_of_range :
  get_raw_data (AxInt 4) s_012 = (Raise IndexError, s_012) /\
  is_ok (fst (get_raw_data (AxInt 4) s_012)) = false /\
  IndexError <> KeyError.
Proof.
  split; [reflexivity|]. split; [reflexivity|discriminate].
Qed.

(** A run of C2's theorem on [s_012]: get_orientations hands out the
    cached references 2 and 1, and the array written through reference 2 is
    what the store holds for the next read. *)
Lemma cached_arrays_witness :
  get_orientations s_012 =
    (Ok (Some (Some 2%positive, Some 1%positive)), s_012) /\
  exists s',
    mutate 2%positive (A1 [99; 1; 2]) s_012 = (Ok tt, s') /\
    get_orientations s' = (Ok (Some (Some 2%positive, Some 1%positive)), s') /\
    heap s' !! 2%positive = Some (A1 [99; 1; 2]).
Proof.
  destruct (cached_arrays_are_shared s_012 2%positive 1%positive
              eq_refl eq_refl eq_refl) as (Hget & _ & Hmut & _).
  split; [exact Hget|].
  destruct (Hmut 2%positive (@A1 Q_Num [99; 1; 2]) (or_introl eq_refl))
    as (s' & Hm & Hg & _ & Hh).
  exists s'. split; [exact Hm|]. split; [exact Hg|exact Hh].
Defined.

(** C2 as stated fails: the time array that get_orientations returns for
    [s_012] is the cached one.  After the caller's write [t[0] = 99] through
    the returned reference, get_orientations returns the same reference and
    the array behind it now starts with 99. *)
Lemma mutation_reaches_cache :
  exists s',
    fst (get_orientations s_012) = Ok (Some (Some 2%positive, Some 1%positive)) /\
    heap s_012 !! 2%positive = Some (A1 [0; 1; 2]) /\
    setitem [0; 1; 2] 0 99 = Ok [99; 1; 2] /\
    mutate 2%positive (A1 [99; 1; 2]) s_012 = (Ok tt, s') /\
    fst (get_orientations s') = Ok (Some (Some 2%positive, Some 1%positive)) /\
    heap s' !! 2%positive = Some (A1 [99; 1; 2]) /\
    A1 [99; 1; 2] <> A1 [0; 1; 2].
Proof.
  eexists. repeat (split; [reflexivity|]). discriminate.
Qed.

(** A run of C10's theorem on the fresh instance [g_012], with a default
    strategy that accepts the missing arrays: get_orientations returns None
    and get_stabilize_transform raises AttributeError. *)
Lemma accessors_before_integration_witness :
  get_orientations (PyState ∅ g_012) = (Ok None, PyState ∅ g_012) /\
  fst (get_stabilize_transform lenient_track (PyState ∅ g_012)) =
    Raise AttributeError /\
  is_ok (fst (get_interpolated_stab_transform lenient_track 10 0 (1 # 2)
                (PyState ∅ g_012))) = false.
Proof.
  destruct (accessors_before_integration lenient_track (PyState ∅ g_012)
              eq_refl eq_refl) as (Hget & _ & Hattr & Hint).
  split; [exact Hget|]. split; [exact (Hattr eq_refl)|].
  exact (Hint eq_refl 10%nat 0 (1 # 2)).
Defined.
End RationalWitnesses.

(** ** The exponential map over the reals (C6) *)

Section RealFacts.
Import RNum GyroIntegrator.
Local Open Scope R_scope.

Lemma lit_half : @lit R_Num (1 # 2) = / 2.
Proof. cbn. unfold Q2R. cbn. Lra.lra. Qed.

Lemma lit_two : @lit R_Num 2 = 2.
Proof. cbn. unfold Q2R. cbn. Lra.lra. Qed.

Lemma lit_one : @lit R_Num 1 = 1.
Proof. cbn. unfold Q2R. cbn. Lra.lra. Qed.

Lemma lit_zero : @lit R_Num 0 = 0.
Proof. cbn. unfold Q2R. cbn. Lra.lra. Qed.

Lemma lit_eps_small : @lit R_Num (1 # 1000000000000) < 1.
Proof. cbn. unfold Q2R. cbn. Lra.lra. Qed.

Lemma normalizeR_unit (q : @quat R_Num) : norm2 q = 1 -> normalizeR q = q.
Proof.
  intros H. unfold normalizeR. rewrite H, sqrt_1. destruct q as [w x y z].
  cbn. f_equal; Lra.lra.
Qed.

Lemma Rmult_div_assoc_l (a s l : R) : a * (s / l) = a * s / l.
Proof. unfold Rdiv. ring. Qed.

Lemma half_pi_ratio : PI * 1 / 2 * 1 / (PI / 2) = 1.
Proof. pose proof PI2_1. field. Lra.lra. Qed.

Context {L : QuatLib R_Num}.

(** The source's arithmetic and the specification's agree on the reals. *)
Lemma rate_to_quat_exp_map (omega : @vec3 R_Num) (dt : R) :
  rate_to_quat omega dt = exp_map omega dt.
Proof.
  unfold rate_to_quat, exp_map, quaternion.
  assert (Hha : vscale (vscale omega dt) (lit (1 # 2)) =
                Vec3 (nmul (vx omega) dt / lit 2)%num
                     (nmul (vy omega) dt / lit 2)%num
                     (nmul (vz omega) dt / lit 2)%num).
  { unfold vscale. cbn [vx vy vz]. rewrite lit_half, lit_two. cbn.
    f_equal; Lra.lra. }
  rewrite Hha. cbv zeta.
  destruct (nlt _ _); [|reflexivity].
  f_equal. unfold vscale. cbn. f_equal; apply Rmult_div_assoc_l.
Qed.

Lemma half_turn_about_z :
  exp_map (Vec3 0 0 PI) 1 = normalize (Quat 0 0 0 1).
Proof.
  unfold exp_map. cbn [vx vy vz]. rewrite lit_two.
  assert (Hl : nsqrt (vdot (Vec3 (nmul 0 1 / 2)%num (nmul 0 1 / 2)%num
                                 (nmul PI 1 / 2)%num)
                           (Vec3 (nmul 0 1 / 2)%num (nmul 0 1 / 2)%num
                                 (nmul PI 1 / 2)%num)) = PI / 2).
  { unfold vdot. cbn.
    replace (0 * 1 / 2 * (0 * 1 / 2) + 0 * 1 / 2 * (0 * 1 / 2) +
             PI * 1 / 2 * (PI * 1 / 2)) with ((PI / 2) * (PI / 2)) by Lra.lra.
    apply sqrt_square. pose proof PI2_1. Lra.lra. }
  cbv zeta. rewrite Hl.
  assert (Hc : nlt (lit (1 # 1000000000000)) (PI / 2) = true).
  { cbn [nlt R_Num]. destruct (Rlt_dec _ _) as [|Hn]; [reflexivity|].
    exfalso. apply Hn. pose proof PI2_1. pose proof lit_eps_small.
    cbn [lit R_Num] in *. Lra.lra. }
  rewrite Hc. cbn [ncos nsin R_Num]. rewrite cos_PI2, sin_PI2.
  f_equal. cbn. f_equal; try Lra.lra.
  apply half_pi_ratio.
Qed.

(** C6: rate_to_quat is the exponential map.  In exact real arithmetic, for
    every angular velocity omega and step dt the result is the
    specification's: with ha = omega*dt/2 and l = |ha|, the normalisation of
    (cos l, ha*sin(l)/l) when l > 1e-12 and the identity (1, 0, 0, 0)
    otherwise.  For omega = [0, 0, pi] and dt = 1 the result is exactly
    (0, 0, 0, 1), for any normalisation that leaves unit quaternions as they
    are. *)
Theorem rate_to_quat_exponential_map :
  (forall q, norm2 q = 1 -> normalize q = q) ->
  (forall omega dt, rate_to_quat omega dt = exp_map omega dt) /\
  rate_to_quat (Vec3 0 0 PI) 1 = Quat 0 0 0 1.
Proof.
  intros Hunit. split; [exact rate_to_quat_exp_map|].
  rewrite rate_to_quat_exp_map, half_turn_about_z.
  apply Hunit. unfold norm2. cbn. Lra.lra.
Qed.
End RealFacts.

(** A run of C6's theorem with division by the magnitude as normalisation. *)
Lemma rate_to_quat_witness :
  @GyroIntegrator.rate_to_quat RNum.R_Num RNum.R_QuatLib
    (@Vec3 RNum.R_Num 0%R 0%R PI) 1%R = @Quat RNum.R_Num 0%R 0%R 0%R 1%R.
Proof.
  exact (proj2 (@rate_to_quat_exponential_map RNum.R_QuatLib normalizeR_unit)).
Defined.

(** ** EulerIntegrator (C9) *)

Section EulerFacts.
Context {N : Num}.
Import EulerIntegrator.

Lemma getitem_fuel {A} (l : list A) i : getitem l i <> OutOfFuel.
Proof. unfold getitem. destruct (l !! i); discriminate. Qed.

Lemma bind_fuel {O A B} (m : M O A) (k : A -> M O B) (s : pystate O) :
  (forall s, fst (m s) <> OutOfFuel) ->
  (forall a s, fst (k a s) <> OutOfFuel) ->
  fst (bind m k s) <> OutOfFuel.
Proof.
  intros Hm Hk. unfold bind. specialize (Hm s).
  destruct (m s) as [[a|e|] s1]; cbn [fst] in *;
    first [apply Hk | congruence].
Qed.

Lemma lift_fuel {O A} (r : result A) (s : pystate O) :
  r <> OutOfFuel -> fst (lift r s) <> OutOfFuel.
Proof. intros H. exact H. Qed.

Lemma integrate_step_fuel i st (s : pystate obj) :
  fst (integrate_step i st s) <> OutOfFuel.
Proof.
  destruct st as [eo [tol ttl]]. unfold integrate_step.
  apply bind_fuel; [discriminate|]. intros e s1.
  apply bind_fuel; [intros; apply lift_fuel, getitem_fuel|]. intros row s2.
  apply bind_fuel;
    [intros; apply lift_fuel; destruct (0 <? i); apply getitem_fuel|].
  intros last_row s3.
  apply bind_fuel;
    [intros; apply lift_fuel; destruct (i <? _); apply getitem_fuel|].
  intros next_row s4.
  apply bind_fuel; [|discriminate].
  intros s5. destruct (np_any (s_omega row)); discriminate.
Qed.

(** Every call of [integrate_all] ends in an exception. *)
Lemma integrate_all_raises (s : pystate obj) :
  exists e, fst (integrate_all s) = Raise e.
Proof.
  unfold integrate_all, bind at 1, get_self. cbn [self].
  destruct (already_integrated (self s)).
  - exists AttributeError. reflexivity.
  - unfold bind at 1.
    pose proof (for_range_fuel integrate_step integrate_step_fuel
                  (num_data_points (self s)) 0
                  (Vec3 (lit 0) (lit 0) (lit 0), ([], [])) s) as Hfuel.
    destruct (for_range integrate_step 0 _ _ s) as [[st|e|] s1];
      cbn [fst] in *.
    + exists AttributeError. reflexivity.
    + exists e. reflexivity.
    + congruence.
Qed.
End EulerFacts.

(** C9: EulerIntegrator.integrate_all never returns its pair.  For every
    instance and store the call raises: the statement that returns reads
    [self.orientation_list], an attribute the class never assigns (the sums
    are stored in [euler_orientation_list]), and a sample with non-zero
    angular velocity already fails at the in-place add of a float array
    into the integer accumulator.  On [rows_012] (zero angular velocity) the
    call raises AttributeError after storing the tracks; on [rows_turn] it
    raises at the first sample. *)
Theorem euler_integrate_all_raises :
  (forall (N : Num) (s : pystate EulerIntegrator.obj),
     exists e, fst (EulerIntegrator.integrate_all s) = Raise e) /\
  EulerIntegrator.init QNum.rows_012 1%Q 1%Q true = Ok QNum.e_012 /\
  fst (EulerIntegrator.integrate_all (PyState ∅ QNum.e_012))
    = Raise AttributeError /\
  EulerIntegrator.already_integrated
    (self (snd (EulerIntegrator.integrate_all (PyState ∅ QNum.e_012)))) = true /\
  fst (EulerIntegrator.integrate_all
         (snd (EulerIntegrator.integrate_all (PyState ∅ QNum.e_012))))
    = Raise AttributeError /\
  rbind (EulerIntegrator.init QNum.rows_turn 1%Q 1%Q true)
    (fun e => fst (EulerIntegrator.integrate_all (PyState ∅ e)))
    = Raise UFuncTypeError.
Proof.
  split; [intros N s; apply integrate_all_raises|].
  repeat split; reflexivity.
Qed.

(** * Further properties *)

(** ** GyroIntegrator: construction and the effect of integration *)

Section MoreGyroFacts.
Context {N : Num} {L : QuatLib N}.
Import GyroIntegrator.
Local Open Scope num_scope.

Lemma truncate_length (d : list sample) :
  d <> [] -> (0 < length (truncate d) <= length d)%nat.
Proof.
  intros Hd. destruct (truncate_spec d) as [[_ ->]|(k & a & b & _ & _ & _ & _ & ->)].
  - destruct d; [congruence|]. cbn. lia.
  - rewrite length_take. destruct d; [congruence|]. cbn. lia.
Qed.

Lemma scaled_length input time_scaling gyro_scaling :
  length (scaled input time_scaling gyro_scaling) = length (truncate input).
Proof. unfold scaled. rewrite !length_map. reflexivity. Qed.

(** X1: the constructor needs a row.  GyroIntegrator(...) never returns
    an instance for a matrix without rows, whatever the other arguments;
    and whenever it returns one, the input had rows and the instance holds
    at least one row and at most as many as the input, with
    [num_data_points] the number of rows kept by the truncation. *)
Theorem init_succeeds_only_with_rows
    input time_scaling gyro_scaling zero_out_time io :
  is_ok (init [] time_scaling gyro_scaling zero_out_time io) = false /\
  forall g,
    init input time_scaling gyro_scaling zero_out_time io = Ok g ->
    input <> [] /\
    num_data_points g = length (data g) /\
    length (data g) = length (truncate input) /\
    (0 < length (data g) <= length input)%nat.
Proof.
  split; [destruct zero_out_time; reflexivity|].
  intros g Hinit.
  destruct input as [|r input];
    [destruct zero_out_time; discriminate|].
  pose proof (truncate_length (r :: input) ltac:(discriminate)) as Hlen.
  destruct (init_ok _ _ _ _ _ _ Hinit) as ((r0 & _ & Hd) & Hn & _).
  assert (Hl : length (data g) = length (truncate (r :: input))).
  { rewrite Hd. destruct zero_out_time; rewrite ?length_map;
      apply scaled_length. }
  split; [discriminate|]. split; [exact Hn|]. split; [exact Hl|].
  rewrite Hl. exact Hlen.
Qed.


(** X3: what a first integrate_all changes.  The call creates two new array
    objects, distinct from each other and from every array the store held,
    and leaves every existing array, the sample data, the row count and the
    strategy as they were; get_orientations then returns the very pair the
    call returned. *)
Theorem integrate_all_only_adds_arrays (s : pystate obj) :
  already_integrated (self s) = false ->
  num_data_points (self s) = length (data (self s)) ->
  exists lt lo s',
    integrate_all s = (Ok (Some lt, Some lo), s') /\
    heap s !! lt = None /\ heap s !! lo = None /\ lt <> lo /\
    (forall l, l <> lt -> l <> lo -> heap s' !! l = heap s !! l) /\
    data (self s') = data (self s) /\
    num_data_points (self s') = num_data_points (self s) /\
    smoothing_algo (self s') = smoothing_algo (self s) /\
    get_orientations s' = (Ok (Some (Some lt, Some lo)), s').
Proof.
  intros Hint Hn. rewrite (integrate_all_first s Hint Hn).
  set (lo := fresh (dom (heap s))).
  set (h1 := <[lo := _]> (heap s)).
  set (lt := fresh (dom h1)).
  assert (Hne : lt <> lo) by apply fresh_insert_ne.
  exists lt, lo. eexists. split; [reflexivity|]. cbn [heap self].
  split.
  { pose proof (fresh_lookup h1) as Hf. fold lt in Hf.
    unfold h1 in Hf. rewrite lookup_insert_ne in Hf by congruence. exact Hf. }
  split; [apply fresh_lookup|]. split; [exact Hne|].
  split.
  { intros l Hl1 Hl2. unfold h1.
    rewrite !lookup_insert_ne by congruence. reflexivity. }
  repeat (split; [reflexivity|]).
  apply get_orientations_cached. reflexivity.
Qed.

(** X4: the running orientation after integration.  integrate_all leaves
    [self.orientation] at the last entry of the orientation list it
    returns (at the initial orientation when there are no rows). *)
Theorem integrate_all_leaves_last_orientation (s : pystate obj) :
  already_integrated (self s) = false ->
  num_data_points (self s) = length (data (self s)) ->
  exists lt lo s' qs,
    integrate_all s = (Ok (Some lt, Some lo), s') /\
    heap s' !! lo = Some (A4 qs) /\
    orientation (self s') = default (orientation (self s)) (last qs).
Proof.
  intros Hint Hn. rewrite (integrate_all_first s Hint Hn).
  eexists _, _, _, _. split; [reflexivity|]. cbn [heap self].
  split.
  { rewrite lookup_insert_ne by apply fresh_insert_ne. apply lookup_insert_eq. }
  cbn [orientation with_integrated with_orientation].
  destruct (length (data (self s))) as [|k]; [reflexivity|].
  rewrite seq_S, map_app. cbn [map Nat.add]. rewrite last_snoc. reflexivity.
Qed.
End MoreGyroFacts.

(** ** The stabilising rotations *)

Section StabFacts.
Context {N : Num} {L : QuatLib N}.
Import GyroIntegrator.
Local Open Scope num_scope.

Lemma for_range_r_add {St} (body : nat -> St -> result St) a b start (acc : St) :
  for_range_r body start (a + b) acc =
    rbind (for_range_r body start a acc) (for_range_r body (start + a) b).
Proof.
  revert start acc. induction a as [|a IH]; intros start acc.
  - cbn. rewrite Nat.add_0_r. reflexivity.
  - cbn [Nat.add for_range_r]. destruct (body start acc) as [acc'| |];
      cbn [rbind]; try reflexivity.
    rewrite IH. replace (S start + a)%nat with (start + S a)%nat by lia.
    reflexivity.
Qed.

Lemma filled_length sm ol m i :
  (i <= length sm)%nat -> (i <= length ol)%nat -> (i <= m)%nat ->
  length (filled sm ol m i) = m.
Proof.
  intros. unfold filled.
  rewrite length_app, length_zip_with, !length_take, length_replicate. lia.
Qed.

Lemma stab_step_filled sm ol m i :
  (i < length sm)%nat -> (i < length ol)%nat -> (i < m)%nat ->
  stab_step sm ol i (filled sm ol m i) = Ok (filled sm ol m (S i)).
Proof.
  intros Hs Ho Hm.
  destruct (lookup_lt_is_Some_2 sm i Hs) as [s_i Hsi].
  destruct (lookup_lt_is_Some_2 ol i Ho) as [o_i Hoi].
  unfold stab_step. rewrite (getitem_lookup _ _ _ Hsi), (getitem_lookup _ _ _ Hoi).
  cbn [rbind]. unfold setitem.
  rewrite filled_length by lia.
  replace (i <? m)%nat with true by (symmetry; apply Nat.ltb_lt; exact Hm).
  f_equal. unfold filled.
  assert (Hz : length (zip_with rot_between (take i sm) (take i ol)) = i).
  { rewrite length_zip_with, !length_take. lia. }
  rewrite insert_app_r_alt by lia. rewrite Hz, Nat.sub_diag.
  replace (m - i)%nat with (S (m - S i)) by lia. cbn [replicate].
  rewrite (take_S_r _ _ _ Hsi), (take_S_r _ _ _ Hoi).
  rewrite zip_with_app by (rewrite !length_take; lia).
  cbn. rewrite <- app_assoc. reflexivity.
Qed.

Lemma stab_loop_filled sm ol m c i :
  (i + c <= length sm)%nat -> (i + c <= length ol)%nat -> (i + c <= m)%nat ->
  for_range_r (stab_step sm ol) i c (filled sm ol m i) =
    Ok (filled sm ol m (i + c)).
Proof.
  revert i. induction c as [|c IH]; intros i Hs Ho Hm.
  - rewrite Nat.add_0_r. reflexivity.
  - cbn [for_range_r]. rewrite stab_step_filled by lia. cbn [rbind].
    rewrite IH by lia. f_equal. f_equal. lia.
Qed.

(** With a smoothed track at least as long as the loop, the loop fills one
    row per pass and leaves the rest zero. *)
Lemma stab_loop_ok sm ol m n :
  (n <= length sm)%nat -> (n <= length ol)%nat -> (n <= m)%nat ->
  for_range_r (stab_step sm ol) 0 n (replicate m zero_quat) =
    Ok (filled sm ol m n).
Proof.
  intros. replace (replicate m zero_quat) with (filled sm ol m 0)
    by (unfold filled; cbn [take zip_with app]; rewrite Nat.sub_0_r; reflexivity).
  rewrite stab_loop_filled by (cbn; lia). reflexivity.
Qed.

(** With a shorter smoothed track the loop runs off its end. *)
Lemma stab_loop_short sm ol m n :
  (length sm < n)%nat -> (length sm <= length ol)%nat -> (length sm <= m)%nat ->
  for_range_r (stab_step sm ol) 0 n (replicate m zero_quat) = Raise IndexError.
Proof.
  intros Hlt Ho Hm.
  replace n with (length sm + S (n - S (length sm)))%nat by lia.
  rewrite for_range_r_add, stab_loop_ok by lia. cbn [rbind Nat.add for_range_r].
  unfold stab_step at 1. unfold getitem at 1.
  rewrite lookup_ge_None_2 by lia. reflexivity.
Qed.

Lemma zip_with_take_longer {A B C} (f : A -> B -> C) (l : list A) (k : list B) :
  zip_with f (take (length k) l) k = zip_with f l k.
Proof.
  revert l. induction k as [|y k IH]; intros [|x l]; cbn; try reflexivity.
  rewrite IH. reflexivity.
Qed.

Lemma filled_full sm ol :
  (length ol <= length sm)%nat ->
  filled sm ol (length ol) (length ol) = zip_with rot_between sm ol.
Proof.
  intros H. unfold filled. rewrite Nat.sub_diag, app_nil_r.
  rewrite (take_ge ol) by lia. apply zip_with_take_longer.
Qed.

Variable PlainSlerp : SmoothingAlgo N.

(** What [get_stabilize_transform] does once the strategy has answered,
    on an integrated instance. *)
Lemma get_stabilize_transform_run (s : pystate obj) lt lo tl ol tl' sm :
  time_list (self s) = Some lt ->
  orientation_list (self s) = Some lo ->
  heap s !! lt = Some (A1 tl) ->
  heap s !! lo = Some (A4 ol) ->
  get_smooth_orientations (current_algo PlainSlerp (self s)) (Some tl) (Some ol)
    = Ok (tl', sm) ->
  exists s1,
    heap s1 = heap s /\
    self s1 = match smoothing_algo (self s) with
              | Some _ => self s
              | None => with_smoothing_algo (self s) (Some PlainSlerp)
              end /\
    get_stabilize_transform PlainSlerp s =
      match for_range_r (stab_step sm ol) 0 (num_data_points (self s))
              (replicate (length ol) zero_quat) with
      | Ok stab =>
          (Ok (Some lt, fresh (dom (heap s))),
           PyState (<[fresh (dom (heap s)) := A4 stab]> (heap s)) (self s1))
      | Raise e => (Raise e, s1)
      | OutOfFuel => (OutOfFuel, s1)
      end.
Proof.
  intros Ht Ho Hlt Hlo Hsm.
  destruct (get_smoothed_orientation_run PlainSlerp s) as (s1 & Hrun & Hheap & Hself).
  rewrite Ht, Ho in Hrun. cbn [mbind option_bind] in Hrun.
  rewrite Hlt, Hlo in Hrun. cbn [as_A1 as_A4] in Hrun. rewrite Hsm in Hrun.
  exists s1. split; [exact Hheap|]. split; [exact Hself|].
  assert (Ho1 : orientation_list (self s1) = Some lo).
  { rewrite Hself. destruct (smoothing_algo (self s)); exact Ho. }
  assert (Ht1 : time_list (self s1) = Some lt).
  { rewrite Hself. destruct (smoothing_algo (self s)); exact Ht. }
  assert (Hn1 : num_data_points (self s1) = num_data_points (self s)).
  { rewrite Hself. destruct (smoothing_algo (self s)); reflexivity. }
  unfold get_stabilize_transform, bind. rewrite Hrun. cbn [snd].
  unfold orientation_rows, bind, get_self, contents, ret.
  cbn [self]. rewrite Ho1, Hheap, Hlo. cbn [as_A4 self heap].
  unfold lift. rewrite Hn1.
  destruct (for_range_r _ _ _ _) as [stab|e|]; try reflexivity.
  unfold alloc. cbn [self heap]. rewrite Hheap, Ht1. reflexivity.
Qed.

(** X5: the stabilising rotations.  On an integrated instance whose
    strategy answers with a smoothed track at least as long as the
    orientation list, get_stabilize_transform returns the cached time-list
    reference itself (the time list in the strategy's answer is dropped)
    and a new array whose row [i] is rot_between(smoothed[i],
    orientation_list[i]); no existing array is touched. *)
Theorem get_stabilize_transform_rotations (s : pystate obj) lt lo tl ol tl' sm :
  time_list (self s) = Some lt ->
  orientation_list (self s) = Some lo ->
  heap s !! lt = Some (A1 tl) ->
  heap s !! lo = Some (A4 ol) ->
  num_data_points (self s) = length ol ->
  get_smooth_orientations (current_algo PlainSlerp (self s)) (Some tl) (Some ol)
    = Ok (tl', sm) ->
  (length ol <= length sm)%nat ->
  exists l s',
    get_stabilize_transform PlainSlerp s = (Ok (Some lt, l), s') /\
    heap s !! l = None /\
    heap s' = <[l := A4 (zip_with rot_between sm ol)]> (heap s) /\
    length (zip_with rot_between sm ol) = length ol.
Proof.
  intros Ht Ho Hlt Hlo Hn Hsm Hlen.
  destruct (get_stabilize_transform_run s lt lo tl ol tl' sm Ht Ho Hlt Hlo Hsm)
    as (s1 & Hheap & Hself & Hrun).
  rewrite Hn, stab_loop_ok, filled_full in Hrun by lia.
  eexists _, _. split; [exact Hrun|]. split; [apply fresh_lookup|].
  split; [reflexivity|]. rewrite length_zip_with. lia.
Qed.

(** X6: a smoothed track that is too short.  On an integrated instance
    whose strategy answers with fewer smoothed orientations than there are
    samples, get_stabilize_transform raises IndexError. *)
Theorem get_stabilize_transform_short_track (s : pystate obj) lt lo tl ol tl' sm :
  time_list (self s) = Some lt ->
  orientation_list (self s) = Some lo ->
  heap s !! lt = Some (A1 tl) ->
  heap s !! lo = Some (A4 ol) ->
  num_data_points (self s) = length ol ->
  get_smooth_orientations (current_algo PlainSlerp (self s)) (Some tl) (Some ol)
    = Ok (tl', sm) ->
  (length sm < length ol)%nat ->
  fst (get_stabilize_transform PlainSlerp s) = Raise IndexError.
Proof.
  intros Ht Ho Hlt Hlo Hn Hsm Hlen.
  destruct (get_stabilize_transform_run s lt lo tl ol tl' sm Ht Ho Hlt Hlo Hsm)
    as (s1 & Hheap & Hself & Hrun).
  rewrite Hn, stab_loop_short in Hrun by lia. rewrite Hrun. reflexivity.
Qed.
End StabFacts.

(** ** The resampling loops *)

Section GridFacts.
Context {N : Num} {L : QuatLib N}.
Import GyroIntegrator.
Local Open Scope num_scope.

Lemma grid_snoc start interval n :
  grid start interval n ++ [Nat.iter n (fun t => t + interval) start] =
    grid start interval (S n).
Proof.
  revert start. induction n as [|n IH]; intros start; [reflexivity|].
  cbn [grid app]. rewrite Nat.iter_succ_r. rewrite IH. reflexivity.
Qed.

Lemma grid_step start interval n i a b :
  grid start interval n !! i = Some a ->
  grid start interval n !! S i = Some b ->
  b = a + interval.
Proof.
  revert start i. induction n as [|n IH]; intros start [|i]; cbn [grid];
    try discriminate.
  - intros Ha. injection Ha as <-. destruct n; cbn; [discriminate|].
    intros Hb. injection Hb as <-. reflexivity.
  - apply IH.
Qed.

Section OneRun.
Variables (tl : list num) (so : list quat) (start interval : num).

Lemma on_grid_emit r st :
  on_grid start interval st -> on_grid start interval (emit interval r st).
Proof.
  destruct st as [[time out] rots]. unfold on_grid, emit.
  intros (Hout & Htime & Hlen).
  rewrite !length_app. cbn [length]. rewrite !Nat.add_1_r.
  split; [|split].
  - rewrite <- grid_snoc. f_equal; [exact Hout|f_equal; exact Htime].
  - rewrite Nat.iter_succ, <- Htime. reflexivity.
  - congruence.
Qed.

Lemma on_grid_emit_first st st' :
  on_grid start interval st -> emit_first so interval st = Ok st' ->
  on_grid start interval st'.
Proof.
  unfold emit_first. intros Hin H. destruct (getitem so 0); try discriminate.
  injection H as <-. apply on_grid_emit, Hin.
Qed.

Lemma on_grid_interval_step fuel i st st' :
  on_grid start interval st ->
  interval_step fuel tl so interval i st = Ok st' ->
  on_grid start interval st'.
Proof.
  unfold interval_step. intros Hin Hrun.
  destruct (while_r fuel _ _ st) as [st1| |] eqn:Hw; try discriminate.
  cbn [rbind] in Hrun.
  assert (Hin1 : on_grid start interval st1).
  { revert Hw. apply while_r_inv; [|exact Hin].
    intros st0 st0' Hin0 _ Hb. unfold emit_slerp in Hb.
    repeat (match type of Hb with
            | context [getitem ?l ?j] => destruct (getitem l j); try discriminate
            end; cbn [rbind] in Hb).
    injection Hb as <-. apply on_grid_emit, Hin0. }
  destruct (getitem tl i); try discriminate. cbn [rbind] in Hrun.
  destruct (_ <? _).
  - destruct (getitem so i); try discriminate. injection Hrun as <-.
    apply on_grid_emit, Hin1.
  - injection Hrun as <-. exact Hin1.
Qed.

(** X7: the output grid.  Whatever the inputs, the output times of a
    completed resampling are start, start + interval, (start + interval) +
    interval, ... without a gap: each output time is the one before it plus
    the interval, by the very addition the loop performs; and there is
    exactly one rotation per output time. *)
Theorem resample_outputs_on_grid fuel out rots :
  resample fuel tl so start interval = Ok (out, rots) ->
  out = grid start interval (length out) /\
  length rots = length out /\
  (forall i a b, out !! i = Some a -> out !! S i = Some b -> b = a + interval).
Proof.
  unfold resample. intros Hrun.
  destruct (while_r fuel before_zero _ _) as [st1| |] eqn:H1; try discriminate.
  cbn [rbind] in Hrun.
  destruct (while_r fuel (before_first tl) _ _) as [st2| |] eqn:H2;
    try discriminate.
  cbn [rbind] in Hrun.
  destruct (for_range_r _ _ _ _) as [st3| |] eqn:H3; try discriminate.
  injection Hrun as <- <-.
  assert (Hin1 : on_grid start interval st1).
  { revert H1. apply while_r_inv.
    - intros st st' Hin _ Hb. eapply on_grid_emit_first; eauto.
    - repeat split. }
  assert (Hin2 : on_grid start interval st2).
  { revert H2. apply while_r_inv; [|exact Hin1].
    intros st st' Hin _ Hb. eapply on_grid_emit_first; eauto. }
  assert (Hin3 : on_grid start interval st3).
  { revert H3. apply (for_range_r_inv (on_grid start interval)); [|exact Hin2].
    intros i st st' Hin Hs. eapply on_grid_interval_step; eauto. }
  destruct st3 as [[time out] rots]. destruct Hin3 as (Hout & _ & Hlen).
  split; [exact Hout|]. split; [exact Hlen|].
  cbn [fst snd]. rewrite Hout. apply grid_step.
Qed.
End OneRun.

(** The only exception the leading loops raise is the IndexError of
    [smoothed_orientation[0]]. *)
Lemma leading_loop_raises fuel (cond : rs_state -> result bool)
    (so : list quat) interval st e :
  (forall st e, cond st = Raise e -> e = IndexError) ->
  while_r fuel cond (emit_first so interval) st = Raise e -> e = IndexError.
Proof.
  intros Hcond. revert st. induction fuel as [|f IH]; intros st Hrun;
    [discriminate|].
  cbn [while_r] in Hrun.
  destruct (cond st) as [[|]|e'|] eqn:Hc; cbn [rbind] in Hrun;
    try discriminate.
  - destruct (emit_first so interval st) as [st'|e'|] eqn:Hb;
      cbn [rbind] in Hrun; try discriminate.
    + eapply IH, Hrun.
    + injection Hrun as <-. unfold emit_first, getitem in Hb.
      destruct (so !! 0%nat); cbn [rbind] in Hb; congruence.
  - injection Hrun as <-. eapply Hcond, Hc.
Qed.

(** X8: no timestamps.  With an empty time list the resampling never
    returns a result: unless a loop fails to end, it raises IndexError, at
    [time_list[0]] or before that at [smoothed_orientation[0]]; from a start
    time that is not negative it raises IndexError at once. *)
Theorem resample_empty_time_list fuel (so : list quat) start interval :
  (resample fuel [] so start interval = Raise IndexError \/
   resample fuel [] so start interval = OutOfFuel) /\
  ((start <? lit 0) = false -> fuel <> 0%nat ->
   resample fuel [] so start interval = Raise IndexError).
Proof.
  split.
  - unfold resample.
    destruct (while_r fuel before_zero _ _) as [st1|e|] eqn:H1; cbn [rbind].
    + destruct fuel as [|f]; [discriminate|]. left. reflexivity.
    + left. f_equal. eapply leading_loop_raises; [|exact H1].
      intros st e' H. discriminate.
    + right. reflexivity.
  - intros Hneg Hfuel. destruct fuel as [|f]; [congruence|].
    unfold resample. cbn [while_r]. unfold before_zero at 1.
    cbn [fst rbind]. rewrite Hneg. reflexivity.
Qed.

(** X9: a single timestamp.  With a one-element time list every rotation
    of a completed resampling is the first stabilising rotation unchanged:
    nothing is interpolated. *)
Theorem resample_single_timestamp fuel t0 (so : list quat) start interval out rots :
  resample fuel [t0] so start interval = Ok (out, rots) ->
  Forall (fun r => exists q, so !! 0%nat = Some q /\ r = Row q) rots.
Proof.
  unfold resample. intros Hrun.
  destruct (while_r fuel before_zero _ _) as [st1| |] eqn:H1; try discriminate.
  cbn [rbind] in Hrun.
  destruct (while_r fuel (before_first [t0]) _ _) as [st2| |] eqn:H2;
    try discriminate.
  cbn in Hrun. injection Hrun as _ <-.
  set (I := fun st : rs_state =>
              Forall (fun r => exists q, so !! 0%nat = Some q /\ r = Row q) (snd st)).
  assert (Hstep : forall st st', I st -> emit_first so interval st = Ok st' -> I st').
  { intros [[time out'] rots'] st' Hin Hb. unfold emit_first, getitem in Hb.
    destruct (so !! 0%nat) as [q|] eqn:Hq; try discriminate.
    injection Hb as <-. unfold I, emit. cbn. apply Forall_app. split; [exact Hin|].
    constructor; [|constructor]. exists q. split; first [exact Hq|reflexivity]. }
  assert (Hin1 : I st1).
  { revert H1. apply (while_r_inv I); [|constructor].
    intros st st' Hin _ Hb. eapply Hstep; eauto. }
  revert H2. apply (while_r_inv I); [|exact Hin1].
  intros st st' Hin _ Hb. eapply Hstep; eauto.
Qed.

(** A leading loop whose clock does not move never ends. *)
Lemma while_emit_first_stuck (cond : rs_state -> result bool)
    (so : list quat) q interval time :
  so !! 0%nat = Some q ->
  time + interval = time ->
  (forall st, fst (fst st) = time -> cond st = Ok true) ->
  forall fuel st, fst (fst st) = time ->
    while_r fuel cond (emit_first so interval) st = OutOfFuel.
Proof.
  intros Hq Hadd Hcond.
  assert (Hb : forall st, emit_first so interval st = Ok (emit interval (Row q) st)).
  { intros st. unfold emit_first. rewrite (getitem_lookup _ _ _ Hq). reflexivity. }
  induction fuel as [|f IH]; intros st Hst; [reflexivity|].
  cbn [while_r]. rewrite (Hcond st Hst). cbn [rbind].
  rewrite (Hb st). cbn [rbind].
  apply IH. destruct st as [[t out] rots]. cbn in *. subst t. exact Hadd.
Qed.

(** X10: an interval that does not advance the clock.  If adding the
    interval leaves the start time unchanged (a zero interval, or one too
    small to change the sum) and the start time is negative or not after the
    first timestamp, the resampling never terminates: every step bound is
    exhausted. *)
Theorem resample_diverges_without_progress
    fuel tl (so : list quat) q t0 start interval :
  so !! 0%nat = Some q ->
  tl !! 0%nat = Some t0 ->
  start + interval = start ->
  (start <? lit 0) = true \/ (start <=? t0) = true ->
  resample fuel tl so start interval = OutOfFuel.
Proof.
  intros Hq Ht0 Hadd Hcase. unfold resample.
  destruct (start <? lit 0) eqn:Hneg.
  - rewrite (while_emit_first_stuck before_zero so q interval start Hq Hadd);
      [reflexivity| |reflexivity].
    intros st Hst. unfold before_zero. rewrite Hst, Hneg. reflexivity.
  - destruct Hcase as [Hc|Hle]; [discriminate|].
    destruct fuel as [|f]; [reflexivity|].
    assert (H1 : while_r (S f) before_zero (emit_first so interval)
                   (start, [], []) = Ok (start, [], [])).
    { cbn [while_r]. unfold before_zero at 1. cbn [fst rbind]. rewrite Hneg.
      reflexivity. }
    rewrite H1. cbn [rbind].
    rewrite (while_emit_first_stuck (before_first tl) so q interval start Hq Hadd);
      [reflexivity| |reflexivity].
    intros st Hst. unfold before_first.
    rewrite (getitem_lookup _ _ _ Ht0). cbn [rbind]. rewrite Hst, Hle.
    reflexivity.
Qed.
End GridFacts.

(** ** Termination of the resampling loops *)

(** A [while] loop whose body lowers a natural-number measure, as long as an
    invariant holds, ends within as many tests as the measure allows. *)
Lemma while_r_enough_fuel {St} (mu : St -> nat) (I : St -> Prop)
    (cond : St -> result bool) (body : St -> result St) :
  (forall st, cond st <> OutOfFuel) ->
  (forall st, body st <> OutOfFuel) ->
  (forall st st', I st -> cond st = Ok true -> body st = Ok st' ->
     I st' /\ (mu st' < mu st)%nat) ->
  forall fuel st, I st -> (mu st < fuel)%nat ->
    while_r fuel cond body st <> OutOfFuel.
Proof.
  intros Hc Hb Hstep. induction fuel as [|f IH]; intros st HI Hmu; [lia|].
  cbn [while_r]. specialize (Hc st).
  destruct (cond st) as [[|]| |] eqn:Ec; cbn [rbind]; try congruence.
  specialize (Hb st).
  destruct (body st) as [st'| |] eqn:Eb; cbn [rbind]; try congruence.
  destruct (Hstep st st' HI Ec Eb) as [HI' Hlt].
  apply IH; [exact HI'|lia].
Qed.

Lemma for_range_r_enough_fuel {St} (I : St -> Prop)
    (body : nat -> St -> result St) :
  (forall i st, I st -> body i st <> OutOfFuel) ->
  (forall i st st', I st -> body i st = Ok st' -> I st') ->
  forall count start st, I st -> for_range_r body start count st <> OutOfFuel.
Proof.
  intros Hb Hstep. induction count as [|c IH]; intros start st HI.
  - discriminate.
  - cbn [for_range_r]. specialize (Hb start st HI).
    destruct (body start st) as [st'| |] eqn:Eb; cbn [rbind]; try congruence.
    apply IH. eapply Hstep; eauto.
Qed.

Section Termination.
Context {N : Num} {L : QuatLib N}.
Import GyroIntegrator.
Local Open Scope num_scope.

Variables (tl : list num) (so : list quat) (start interval : num).
Variable rank : num -> nat.
Hypothesis progress :
  forall t, clock_below tl t -> (rank (nadd t interval) < rank t)%nat.

Local Abbreviation ranked := (clock_ranked rank start).

Lemma ranked_emit r (st : rs_state) :
  clock_below tl (fst (fst st)) -> ranked st ->
  ranked (emit interval r st) /\
  (rank (fst (fst (emit interval r st))) < rank (fst (fst st)))%nat.
Proof.
  destruct st as [[t out] rots]. unfold clock_ranked. cbn [emit fst snd].
  intros Hb Hr. specialize (progress t Hb). lia.
Qed.

Lemma emit_first_fuel st : emit_first so interval st <> OutOfFuel.
Proof.
  unfold emit_first, getitem. destruct (so !! 0%nat); discriminate.
Qed.

Lemma emit_first_Ok st st' :
  emit_first so interval st = Ok st' ->
  exists q, st' = emit interval (Row q) st.
Proof.
  unfold emit_first. destruct (getitem so 0) as [q| |]; try discriminate.
  intros H. injection H as <-. eauto.
Qed.

Lemma emit_slerp_fuel i st : emit_slerp tl so interval i st <> OutOfFuel.
Proof.
  unfold emit_slerp, getitem.
  destruct (tl !! i); cbn [rbind]; try discriminate.
  destruct (tl !! (i + 1)%nat); cbn [rbind]; try discriminate.
  destruct (so !! i); cbn [rbind]; try discriminate.
  destruct (so !! (i + 1)%nat); cbn [rbind]; discriminate.
Qed.

Lemma emit_slerp_Ok i st st' :
  emit_slerp tl so interval i st = Ok st' ->
  exists r, st' = emit interval r st.
Proof.
  unfold emit_slerp. intros H.
  repeat (match type of H with
          | context [getitem ?l ?j] => destruct (getitem l j); try discriminate
          end; cbn [rbind] in H).
  injection H as <-. eauto.
Qed.

Lemma before_zero_below st :
  before_zero st = Ok true -> clock_below tl (fst (fst st)).
Proof. unfold before_zero. intros H. injection H as H. left. exact H. Qed.

Lemma before_first_below st :
  before_first tl st = Ok true -> clock_below tl (fst (fst st)).
Proof.
  unfold before_first, getitem.
  destruct (tl !! 0%nat) as [t0|] eqn:H0; cbn [rbind]; try discriminate.
  intros H. injection H as H. right. exists 0%nat, t0. auto.
Qed.

Lemma in_interval_below i st :
  in_interval tl i st = Ok true -> clock_below tl (fst (fst st)).
Proof.
  unfold in_interval, getitem.
  destruct (tl !! i) as [ti|]; cbn [rbind]; try discriminate.
  destruct (_ <=? _); try discriminate.
  destruct (tl !! (i + 1)%nat) as [tj|] eqn:Hj; cbn [rbind]; try discriminate.
  intros H. injection H as H. right. exists (i + 1)%nat, tj. auto.
Qed.

Lemma in_interval_fuel i st : in_interval tl i st <> OutOfFuel.
Proof.
  unfold in_interval, getitem.
  destruct (tl !! i); cbn [rbind]; try discriminate.
  destruct (_ <=? _); try discriminate.
  destruct (tl !! (i + 1)%nat); discriminate.
Qed.

Lemma before_first_fuel st : before_first tl st <> OutOfFuel.
Proof.
  unfold before_first, getitem. destruct (tl !! 0%nat); discriminate.
Qed.

Variable fuel : nat.
Hypothesis fuel_enough : (rank start < fuel)%nat.

Lemma leading_loop_ends (cond : rs_state -> result bool) st :
  (forall st, cond st <> OutOfFuel) ->
  (forall st, cond st = Ok true -> clock_below tl (fst (fst st))) ->
  ranked st ->
  while_r fuel cond (emit_first so interval) st <> OutOfFuel /\
  forall st', while_r fuel cond (emit_first so interval) st = Ok st' ->
    ranked st'.
Proof.
  intros Hfuel Hbelow Hst. split.
  - apply (while_r_enough_fuel (fun st => rank (fst (fst st))) ranked).
    + exact Hfuel.
    + apply emit_first_fuel.
    + intros st0 st' H0 Hc Hb. apply emit_first_Ok in Hb as [q ->].
      apply ranked_emit; [apply Hbelow, Hc|exact H0].
    + exact Hst.
    + unfold clock_ranked in Hst. cbv beta. lia.
  - intros st'. apply (while_r_inv ranked); [|exact Hst].
    intros st0 st0' H0 Hc Hb. apply emit_first_Ok in Hb as [q ->].
    apply ranked_emit; [apply Hbelow, Hc|exact H0].
Qed.

Lemma interval_step_ends i st :
  ranked st ->
  interval_step fuel tl so interval i st <> OutOfFuel /\
  forall st', interval_step fuel tl so interval i st = Ok st' -> ranked st'.
Proof.
  intros Hst. unfold interval_step.
  assert (Hw : while_r fuel (in_interval tl i) (emit_slerp tl so interval i) st
                 <> OutOfFuel).
  { apply (while_r_enough_fuel (fun st => rank (fst (fst st))) ranked).
    - apply in_interval_fuel.
    - apply emit_slerp_fuel.
    - intros st0 st' H0 Hc Hb. apply emit_slerp_Ok in Hb as [r ->].
      apply ranked_emit; [eapply in_interval_below, Hc|exact H0].
    - exact Hst.
    - unfold clock_ranked in Hst. cbv beta. lia. }
  destruct (while_r fuel _ _ st) as [st1| |] eqn:E1; cbn [rbind];
    try congruence; [|split; [discriminate|discriminate]].
  assert (H1 : ranked st1).
  { revert E1. apply (while_r_inv ranked); [|exact Hst].
    intros st0 st0' H0 Hc Hb. apply emit_slerp_Ok in Hb as [r ->].
    apply ranked_emit; [eapply in_interval_below, Hc|exact H0]. }
  unfold getitem.
  destruct (tl !! i) as [ti|] eqn:Hi; cbn [rbind];
    [|split; discriminate].
  destruct (fst (fst st1) <? ti) eqn:Hlt.
  - destruct (so !! i) as [q|]; cbn [rbind]; [|split; discriminate].
    split; [discriminate|]. intros st' H. injection H as <-.
    apply ranked_emit; [|exact H1]. right. exists i, ti. auto.
  - split; [discriminate|]. intros st' H. injection H as <-. exact H1.
Qed.

Lemma resample_ends : resample fuel tl so start interval <> OutOfFuel.
Proof.
  unfold resample.
  assert (H0 : ranked (start, [], [])) by (unfold clock_ranked; cbn; lia).
  destruct (leading_loop_ends before_zero (start, [], [])
              ltac:(discriminate) before_zero_below H0) as [Hw1 Hr1].
  destruct (while_r fuel before_zero _ _) as [st1| |] eqn:E1; cbn [rbind];
    try congruence.
  specialize (Hr1 st1 eq_refl).
  destruct (leading_loop_ends (before_first tl) st1
              before_first_fuel before_first_below Hr1) as [Hw2 Hr2].
  destruct (while_r fuel (before_first tl) _ _) as [st2| |] eqn:E2;
    cbn [rbind]; try congruence.
  specialize (Hr2 st2 eq_refl).
  pose proof (for_range_r_enough_fuel ranked
                (interval_step fuel tl so interval)
                (fun i st Hs => proj1 (interval_step_ends i st Hs))
                (fun i st st' Hs => proj2 (interval_step_ends i st Hs) st')
                (length tl - 1) 0%nat st2 Hr2) as Hw3.
  destruct (for_range_r _ _ _ _) as [st3| |]; cbn [rbind]; congruence.
Qed.
End Termination.


Section RationalClock.
Import QNum.
Local Open Scope Q_scope.

Lemma nlt_true (a b : Q) : nlt a b = true -> a < b.
Proof.
  cbn. rewrite negb_true_iff. intros H. apply Qnot_le_lt. intros Hle.
  apply Qle_bool_iff in Hle. congruence.
Qed.

Lemma nle_true (a b : Q) : nle a b = true -> a <= b.
Proof. cbn. apply Qle_bool_iff. Qed.

Lemma nlt_false (a b : Q) : nlt a b = false -> b <= a.
Proof. cbn. rewrite negb_false_iff. apply Qle_bool_iff. Qed.

Lemma passes_left_step interval b t t' :
  0 < interval -> t <= b -> t' == t + interval ->
  (passes_left interval b t' < passes_left interval b t)%nat.
Proof.
  intros interval_pos Hle Ht'. unfold passes_left.
  assert (H0 : 0 <= (b - t) / interval).
  { apply Qle_shift_div_l; [exact interval_pos|]. Lqa.lra. }
  assert (Hf0 : (0 <= Qfloor ((b - t) / interval))%Z).
  { change 0%Z with (Qfloor 0). apply Qfloor_resp_le, H0. }
  assert (Heq : (b - t') / interval == (b - t) / interval - 1).
  { rewrite Ht'. field. intros H. rewrite H in interval_pos.
    revert interval_pos. apply Qlt_irrefl. }
  assert (Hlt : (Qfloor ((b - t') / interval) < Qfloor ((b - t) / interval))%Z).
  { rewrite Zlt_Qlt.
    pose proof (Qfloor_le ((b - t') / interval)) as H1.
    pose proof (Qlt_floor ((b - t) / interval)) as H2.
    rewrite inject_Z_plus in H2. change (inject_Z 1) with 1 in H2.
    revert H1 H2 Heq.
    generalize (inject_Z (Qfloor ((b - t') / interval))),
               (inject_Z (Qfloor ((b - t) / interval))),
               ((b - t') / interval), ((b - t) / interval).
    intros f' f x' x H1 H2 Heq. Lqa.lra. }
  lia.
Qed.

(** On the rationals a positive interval makes progress below every bound
    on the timestamps. *)
Lemma Q_clock_progress (tl : list (@num Q_Num)) (top interval : Q) :
  0 < interval -> 0 <= top ->
  (forall i t, tl !! i = Some t -> t <= top) ->
  forall t : @num Q_Num, clock_below tl t ->
    (passes_left interval top (nadd t interval)
       < passes_left interval top t)%nat.
Proof.
  intros Hpos Htop Hb t Hbelow.
  apply passes_left_step; [exact Hpos| |apply Qred_correct].
  destruct Hbelow as [H|(i & ti & Hi & [H|H])].
  - apply nlt_true in H. change (lit 0) with 0 in H. Lqa.lra.
  - apply nle_true in H. specialize (Hb i ti Hi). Lqa.lra.
  - apply nlt_true in H. specialize (Hb i ti Hi). Lqa.lra.
Qed.
End RationalClock.


(** ** FrameRotationIntegrator *)

Section FrameFacts.
Context {N : Num} {L : QuatLib N}.
Import FrameRotationIntegrator.
Local Open Scope num_scope.

Lemma frame_step_ok (g0 : obj) (h0 : gmap loc ndarray) i row qs ts :
  data g0 !! i = Some row ->
  integrate_step i (qs, ts)
      (PyState h0 (with_orientation g0
                     (frame_orientation_before (data g0) (orientation g0) i))) =
    (Ok (qs ++ [frame_orientation_after (data g0) (orientation g0) i],
         ts ++ [s_time row]),
     PyState h0 (with_orientation g0
                   (frame_orientation_after (data g0) (orientation g0) i))).
Proof.
  intros Hrow.
  assert (Hafter : frame_orientation_after (data g0) (orientation g0) i =
            if np_any (s_omega row)
            then normalize (quaternion_multiply
                   (frame_orientation_before (data g0) (orientation g0) i)
                   (GyroIntegrator.rate_to_quat (s_omega row) (lit 1)))
            else frame_orientation_before (data g0) (orientation g0) i).
  { destruct i; cbn [frame_orientation_after frame_orientation_before];
      unfold omega_at; rewrite Hrow; reflexivity. }
  unfold integrate_step, bind, get_self, lift, ret, put_self.
  cbn [self heap data num_data_points orientation with_orientation fst snd].
  rewrite (getitem_lookup _ _ _ Hrow), Hafter.
  destruct (np_any (s_omega row)); reflexivity.
Qed.

Lemma frame_loop_ok (g0 : obj) (h0 : gmap loc ndarray) (t : num) :
  num_data_points g0 = length (data g0) ->
  let d := data g0 in
  let q0 := orientation g0 in
  let n := length d in
  for_range integrate_step 0 n ([q0], [t]) (PyState h0 g0) =
    (Ok (q0 :: map (frame_orientation_after d q0) (seq 0 n),
         t :: GyroIntegrator.times d),
     PyState h0 (with_orientation g0 (frame_orientation_before d q0 n))).
Proof.
  intros Hn d q0 n.
  destruct (for_range_ok integrate_step
    (fun i acc s =>
       acc = (q0 :: map (frame_orientation_after d q0) (seq 0 i),
              t :: take i (GyroIntegrator.times d)) /\
       s = PyState h0 (with_orientation g0 (frame_orientation_before d q0 i)))
    n 0 ([q0], [t]) (PyState h0 g0)) as (acc & s & Hrun & Hacc & Hs).
  - split; [reflexivity|]. destruct g0; reflexivity.
  - intros i acc s [_ Hi] [-> ->]. cbn in Hi.
    destruct (lookup_lt_is_Some_2 d i Hi) as [row Hrow].
    eexists _, _. split; [apply (frame_step_ok g0 h0 i row); assumption|].
    split; [|reflexivity].
    rewrite seq_S, map_app. cbn [map Nat.add].
    rewrite (take_S_r _ _ _ (times_lookup _ _ _ Hrow)). reflexivity.
  - rewrite Hrun, Hacc, Hs. cbn [Nat.add].
    rewrite firstn_all2
      by (unfold GyroIntegrator.times; rewrite length_map; reflexivity).
    reflexivity.
Qed.

Lemma frame_integrate_all_first (s : pystate obj) row0 :
  already_integrated (self s) = false ->
  num_data_points (self s) = length (data (self s)) ->
  data (self s) !! 0%nat = Some row0 ->
  let g := self s in
  let d := data g in
  let q0 := orientation g in
  let lo := fresh (dom (heap s)) in
  let h1 := <[lo := A4 (q0 :: map (frame_orientation_after d q0)
                                   (seq 0 (length d)))]> (heap s) in
  let lt := fresh (dom h1) in
  integrate_all s =
    (Ok (Some lt, Some lo),
     PyState (<[lt := A1 ((s_time row0 - lit 1) :: GyroIntegrator.times d)]> h1)
             (with_integrated
                (with_orientation g (frame_orientation_before d q0 (length d)))
                (Some lo) (Some lt))).
Proof.
  intros Hint Hn Hrow g d q0 lo h1 lt.
  unfold integrate_all, bind at 1, get_self. cbn [self fst snd].
  rewrite Hint. unfold bind at 1, lift.
  rewrite (getitem_lookup _ _ _ Hrow). cbn [fst snd].
  unfold bind at 1. rewrite Hn.
  destruct s as [h g']. cbn [self heap] in *.
  rewrite (frame_loop_ok g' h (s_time row0 - lit 1) Hn).
  reflexivity.
Qed.

(** X12: the frame-rotation track.  On a first run over a non-empty
    matrix, FrameRotationIntegrator.integrate_all returns arrays with one
    entry more than there are samples: entry 0 is the initial orientation
    at the first timestamp minus one, and entry i+1 holds the timestamp of
    sample i and the orientation obtained from entry i, unchanged when the
    angular velocity of the sample is zero and otherwise
    normalize(previous * rate_to_quat(omega, 1)): the step is one frame,
    whatever the timestamps. *)
Theorem frame_integrate_all_track (s : pystate obj) row0 :
  already_integrated (self s) = false ->
  num_data_points (self s) = length (data (self s)) ->
  data (self s) !! 0%nat = Some row0 ->
  let d := data (self s) in
  let q0 := orientation (self s) in
  exists lt lo s' ts qs,
    integrate_all s = (Ok (Some lt, Some lo), s') /\
    heap s' !! lt = Some (A1 ts) /\
    heap s' !! lo = Some (A4 qs) /\
    length ts = S (length d) /\ length qs = S (length d) /\
    ts !! 0%nat = Some (s_time row0 - lit 1) /\
    qs !! 0%nat = Some q0 /\
    already_integrated (self s') = true /\
    forall i row, d !! i = Some row ->
      ts !! S i = Some (s_time row) /\
      exists prev,
        qs !! i = Some prev /\
        qs !! S i = Some (if np_any (s_omega row)
                          then normalize (quaternion_multiply prev
                                 (GyroIntegrator.rate_to_quat (s_omega row)
                                    (lit 1)))
                          else prev).
Proof.
  intros Hint Hn Hrow0 d q0.
  rewrite (frame_integrate_all_first s row0 Hint Hn Hrow0). fold d q0.
  eexists _, _, _, _, _. split; [reflexivity|]. cbn [heap].
  split; [apply lookup_insert_eq|].
  split; [rewrite lookup_insert_ne by apply fresh_insert_ne;
          apply lookup_insert_eq|].
  split; [cbn [length]; unfold GyroIntegrator.times; rewrite length_map;
          reflexivity|].
  split; [cbn [length]; rewrite length_map, length_seq; reflexivity|].
  split; [reflexivity|]. split; [reflexivity|]. split; [reflexivity|].
  intros i row Hrow.
  assert (Hi : i < length d) by (eapply lookup_lt_Some; exact Hrow).
  split; [cbn [lookup list_lookup]; apply times_lookup; exact Hrow|].
  exists (frame_orientation_before d q0 i). split.
  - destruct i as [|j]; [reflexivity|].
    change ((q0 :: ?l) !! S j) with (l !! j).
    rewrite lookup_map_seq by lia. reflexivity.
  - change ((q0 :: ?l) !! S i) with (l !! i).
    rewrite lookup_map_seq by exact Hi. f_equal.
    destruct i; cbn [frame_orientation_after frame_orientation_before];
      unfold omega_at; rewrite Hrow; reflexivity.
Qed.

(** X13: the empty matrix.  The constructor of FrameRotationIntegrator
    accepts a matrix without rows (the parent's raises); on an instance
    without rows that has not been integrated, integrate_all raises
    IndexError at [self.data[0][0]] and changes nothing, so every later call
    raises again and get_orientations keeps returning None. *)
Theorem frame_empty_input (s : pystate obj) :
  already_integrated (self s) = false ->
  data (self s) = [] ->
  integrate_all s = (Raise IndexError, s) /\
  get_orientations s = (Ok None, s).
Proof.
  intros Hint Hd.
  unfold integrate_all, get_orientations, bind, get_self, lift, ret.
  cbn [self fst snd]. rewrite Hint, Hd. split; reflexivity.
Qed.

Lemma frame_integrate_all_keeps_algo (s : pystate obj) :
  smoothing_algo (self (snd (integrate_all s))) = smoothing_algo (self s).
Proof.
  unfold integrate_all, bind at 1, get_self. cbn [self fst snd].
  destruct (already_integrated (self s)); [reflexivity|].
  unfold bind at 1, lift. destruct (getitem (data (self s)) 0) as [row0|e|];
    try reflexivity.
  cbn [fst snd]. unfold bind at 1.
  set (t := s_time row0 - lit 1).
  assert (Hloop : forall count start acc s0,
            smoothing_algo (self (snd (for_range integrate_step start count acc s0)))
              = smoothing_algo (self s0)).
  { induction count as [|c IH]; intros start acc s0; [reflexivity|].
    cbn [for_range]. unfold bind at 1.
    assert (Hstep : smoothing_algo (self (snd (integrate_step start acc s0)))
                      = smoothing_algo (self s0)).
    { unfold integrate_step, bind, get_self, lift, ret, put_self.
      cbn [self fst snd].
      destruct (getitem (data (self s0)) start); try reflexivity.
      destruct (np_any _); reflexivity. }
    destruct (integrate_step start acc s0) as [[acc'|e|] s1]; cbn [fst snd] in *;
      try exact Hstep.
    rewrite IH. exact Hstep. }
  specialize (Hloop (num_data_points (self s)) 0%nat
                ([orientation (self s)], [t]) s).
  destruct (for_range integrate_step 0 _ _ s) as [[acc|e|] s1];
    cbn [fst snd] in *; exact Hloop.
Qed.

(** X14: no default strategy.  The subclass constructor does not create
    the attribute [smoothing_algo], so as long as no strategy has been
    stored the three smoothing methods raise AttributeError and change
    nothing; neither set_smoothing_algo(None) nor integrate_all creates the
    attribute. *)
Theorem frame_smoothing_needs_strategy (s : pystate obj) :
  smoothing_algo (self s) = None ->
  get_smoothed_orientation s = (Raise AttributeError, s) /\
  get_stabilize_transform s = (Raise AttributeError, s) /\
  (forall fuel start interval,
     get_interpolated_stab_transform fuel start interval s
       = (Raise AttributeError, s)) /\
  set_smoothing_algo None s = (Ok tt, s) /\
  smoothing_algo (self (snd (integrate_all s))) = None.
Proof.
  intros Hnone.
  assert (Hread : read_smoothing_algo s = (Raise AttributeError, s)).
  { unfold read_smoothing_algo, bind, get_self, raise. cbn [self fst snd].
    rewrite Hnone. reflexivity. }
  assert (Hsm : get_smoothed_orientation s = (Raise AttributeError, s)).
  { unfold get_smoothed_orientation, bind at 1. rewrite Hread. reflexivity. }
  split; [exact Hsm|].
  split; [unfold get_stabilize_transform, bind at 1; rewrite Hsm; reflexivity|].
  split; [intros fuel start interval;
          unfold get_interpolated_stab_transform, bind at 1; rewrite Hread;
          reflexivity|].
  split; [reflexivity|].
  rewrite frame_integrate_all_keeps_algo. exact Hnone.
Qed.

(** X15: the last stabilising rotation.  After integration the
    orientation list has one row more than [num_data_points]; with a
    strategy stored, get_stabilize_transform fills only the first
    [num_data_points] rows and returns the last row as the zero quaternion
    [0, 0, 0, 0]. *)
Theorem frame_stabilize_leaves_zero_row
    (s : pystate obj) a lt lo tl ol tl' sm :
  smoothing_algo (self s) = Some a ->
  time_list (self s) = Some lt ->
  orientation_list (self s) = Some lo ->
  heap s !! lt = Some (A1 tl) ->
  heap s !! lo = Some (A4 ol) ->
  length ol = S (num_data_points (self s)) ->
  get_smooth_orientations a (Some tl) (Some ol) = Ok (tl', sm) ->
  (num_data_points (self s) <= length sm)%nat ->
  let n := num_data_points (self s) in
  exists l stab,
    get_stabilize_transform s =
      (Ok (Some lt, l), PyState (<[l := A4 stab]> (heap s)) (self s)) /\
    heap s !! l = None /\
    stab = zip_with rot_between (take n sm) (take n ol)
             ++ [GyroIntegrator.zero_quat] /\
    length stab = S n /\
    stab !! n = Some GyroIntegrator.zero_quat.
Proof.
  intros Ha Ht Ho Hlt Hlo Hlen Hsm Hn n.
  assert (Hread : read_smoothing_algo s = (Ok a, s)).
  { unfold read_smoothing_algo, bind, get_self, ret. cbn [self fst snd].
    rewrite Ha. reflexivity. }
  assert (Hso : get_smoothed_orientation s = (Ok (tl', sm), s)).
  { unfold get_smoothed_orientation, bind at 1. rewrite Hread. cbn [fst snd].
    unfold bind, get_self, contents, lift, ret. cbn [self fst snd].
    rewrite Ht, Ho. cbn [mbind option_bind]. rewrite Hlt, Hlo.
    cbn [GyroIntegrator.as_A1 GyroIntegrator.as_A4]. rewrite Hsm. reflexivity. }
  exists (fresh (dom (heap s))),
         (filled sm ol (length ol) n).
  assert (Hz : length (zip_with rot_between (take n sm) (take n ol)) = n).
  { rewrite length_zip_with, !length_take. lia. }
  split; [|split; [apply fresh_lookup|split; [|split]]].
  - unfold get_stabilize_transform, bind at 1. rewrite Hso. cbn [fst snd].
    unfold orientation_rows, bind, get_self, contents, ret, lift, alloc.
    cbn [self heap fst snd]. rewrite Ho. cbn [self heap fst snd].
    rewrite Hlo. cbn [GyroIntegrator.as_A4 self heap fst snd].
    fold n. rewrite (stab_loop_ok sm ol (length ol) n) by lia.
    cbn [self heap fst snd]. rewrite Ht. reflexivity.
  - unfold filled. rewrite Hlen. fold n.
    replace (S n - n)%nat with 1%nat by lia. reflexivity.
  - rewrite filled_length by lia. exact Hlen.
  - unfold filled. rewrite lookup_app_r by lia. rewrite Hz, Nat.sub_diag, Hlen.
    fold n. replace (S n - n)%nat with 1%nat by lia. reflexivity.
Qed.
End FrameFacts.

(** ** EulerIntegrator *)

Section MoreEulerFacts.
Context {N : Num}.
Import EulerIntegrator.
Local Open Scope num_scope.

(** One pass over a sample without angular velocity appends the running
    sum and the timestamp and changes nothing else. *)
Lemma euler_step_still (s : pystate obj) i row eo ol tl :
  num_data_points (self s) = length (data (self s)) ->
  data (self s) !! i = Some row ->
  np_any (s_omega row) = false ->
  integrate_step i (eo, (ol, tl)) s =
    (Ok (eo, (ol ++ [eo], tl ++ [s_time row])), s).
Proof.
  intros Hn Hrow Hz.
  destruct (neighbours_ok (data (self s)) (num_data_points (self s))
              i row Hn Hrow) as (a & b & Ha & Hb & _).
  unfold integrate_step, bind, get_self, lift, ret. cbn [self fst snd].
  rewrite Ha, Hb, (getitem_lookup _ _ _ Hrow), Hz. reflexivity.
Qed.

(** One pass over a sample with angular velocity fails at the in-place
    add. *)
Lemma euler_step_moving (s : pystate obj) i row st :
  num_data_points (self s) = length (data (self s)) ->
  data (self s) !! i = Some row ->
  np_any (s_omega row) = true ->
  integrate_step i st s = (Raise UFuncTypeError, s).
Proof.
  intros Hn Hrow Hz. destruct st as [eo [ol tl]].
  destruct (neighbours_ok (data (self s)) (num_data_points (self s))
              i row Hn Hrow) as (a & b & Ha & Hb & _).
  unfold integrate_step, bind, get_self, lift, ret. cbn [self fst snd].
  rewrite Ha, Hb, (getitem_lookup _ _ _ Hrow), Hz. reflexivity.
Qed.

Lemma euler_loop_still (s : pystate obj) :
  num_data_points (self s) = length (data (self s)) ->
  all_zero (data (self s)) ->
  forall eo count start ol tl,
    start + count <= length (data (self s)) ->
    for_range integrate_step start count (eo, (ol, tl)) s =
      (Ok (eo, (ol ++ replicate count eo,
                tl ++ take count (drop start (GyroIntegrator.times (data (self s)))))),
       s).
Proof.
  intros Hn Hz eo. induction count as [|c IH]; intros start ol tl Hle.
  - cbn. rewrite !app_nil_r. reflexivity.
  - destruct (lookup_lt_is_Some_2 (data (self s)) start ltac:(lia)) as [row Hrow].
    cbn [for_range]. unfold bind.
    rewrite (euler_step_still s start row eo ol tl Hn Hrow).
    2:{ exact (Forall_lookup_1 _ _ _ _ Hz Hrow). }
    rewrite IH by lia. cbn [replicate]. rewrite <- !app_assoc. cbn [app].
    f_equal. f_equal. f_equal. f_equal.
    rewrite (drop_S _ _ _ (times_lookup _ _ _ Hrow)). reflexivity.
Qed.

Lemma euler_loop_moving (s : pystate obj) i row :
  num_data_points (self s) = length (data (self s)) ->
  data (self s) !! i = Some row ->
  np_any (s_omega row) = true ->
  forall count start st,
    start <= i < start + count ->
    start + count <= length (data (self s)) ->
    for_range integrate_step start count st s = (Raise UFuncTypeError, s).
Proof.
  intros Hn Hrow Hz. induction count as [|c IH]; intros start st Hi Hle; [lia|].
  destruct (lookup_lt_is_Some_2 (data (self s)) start ltac:(lia)) as [r Hr].
  cbn [for_range]. unfold bind.
  destruct (np_any (s_omega r)) eqn:Hany.
  - rewrite (euler_step_moving s start r st Hn Hr Hany). reflexivity.
  - destruct st as [eo [ol tl]].
    rewrite (euler_step_still s start r eo ol tl Hn Hr Hany).
    apply IH; [|lia].
    destruct (decide (i = start)) as [->|]; [congruence|lia].
Qed.

(** X16: a track without rotation.  When no sample carries angular
    velocity, EulerIntegrator.integrate_all runs its loop to the end,
    stores one zero sum per sample and the timestamps in two new arrays and
    flags the instance as integrated, and only then raises AttributeError
    at its return statement; from then on integrate_all and get_orientations
    raise AttributeError, so the stored arrays are never handed out. *)
Theorem euler_still_track_is_stored_then_lost (s : pystate obj) :
  already_integrated (self s) = false ->
  num_data_points (self s) = length (data (self s)) ->
  all_zero (data (self s)) ->
  exists lo lt s',
    integrate_all s = (Raise AttributeError, s') /\
    already_integrated (self s') = true /\
    euler_orientation_list (self s') = Some lo /\
    time_list (self s') = Some lt /\
    heap s' !! lo = Some (A3 (replicate (length (data (self s)))
                                (Vec3 (lit 0) (lit 0) (lit 0)))) /\
    heap s' !! lt = Some (A1 (GyroIntegrator.times (data (self s)))) /\
    integrate_all s' = (Raise AttributeError, s') /\
    get_orientations s' = (Raise AttributeError, s').
Proof.
  intros Hint Hn Hz.
  unfold integrate_all at 1, bind at 1, get_self. cbn [self fst snd].
  rewrite Hint. unfold bind at 1. rewrite Hn.
  rewrite (euler_loop_still s Hn Hz) by lia.
  rewrite drop_0, firstn_all2
    by (unfold GyroIntegrator.times; rewrite length_map; reflexivity).
  cbn [app fst snd].
  eexists _, _, _. split; [reflexivity|]. cbn [self heap].
  split; [reflexivity|]. split; [reflexivity|]. split; [reflexivity|].
  split; [rewrite lookup_insert_ne by apply fresh_insert_ne;
          apply lookup_insert_eq|].
  split; [apply lookup_insert_eq|].
  split; reflexivity.
Qed.

(** X17: a track with rotation.  As soon as one sample carries angular
    velocity, EulerIntegrator.integrate_all raises at the in-place add of
    the float increment into the integer accumulator and leaves the
    instance and the store exactly as they were: nothing is stored and the
    instance is not flagged. *)
Theorem euler_moving_track_raises_unchanged (s : pystate obj) i row :
  already_integrated (self s) = false ->
  num_data_points (self s) = length (data (self s)) ->
  data (self s) !! i = Some row ->
  np_any (s_omega row) = true ->
  integrate_all s = (Raise UFuncTypeError, s) /\
  get_orientations s = (Ok None, s).
Proof.
  intros Hint Hn Hrow Hany.
  assert (Hi : i < length (data (self s))) by (eapply lookup_lt_Some; exact Hrow).
  split.
  - unfold integrate_all, bind at 1, get_self. cbn [self fst snd].
    rewrite Hint. unfold bind at 1. rewrite Hn.
    rewrite (euler_loop_moving s i row Hn Hrow Hany) by lia. reflexivity.
  - unfold get_orientations, bind, get_self, ret. cbn [self fst snd].
    rewrite Hint. reflexivity.
Qed.

(** X18: the constructor keeps every row.  Whenever EulerIntegrator(...)
    returns an instance, nothing was cut at a backwards timestamp and no
    axis was flipped: the instance has one row per input row, with the
    angular velocity scaled and the timestamp scaled and, with
    zero_out_time, shifted by the first scaled timestamp.  With
    zero_out_time it never returns an instance for a matrix without
    rows. *)
Theorem euler_init_keeps_every_row
    (input : list sample) time_scaling gyro_scaling zero_out_time :
  is_ok (init [] time_scaling gyro_scaling true) = false /\
  forall e,
    init input time_scaling gyro_scaling zero_out_time = Ok e ->
    num_data_points e = length input /\
    length (data e) = length input /\
    already_integrated e = false /\
    forall i r, input !! i = Some r ->
      exists r',
        data e !! i = Some r' /\
        s_omega r' = vscale (s_omega r) gyro_scaling /\
        s_time r' =
          if zero_out_time
          then s_time r * time_scaling
               - default (lit 0) (s_time <$> input !! 0%nat) * time_scaling
          else s_time r * time_scaling.
Proof.
  split; [reflexivity|].
  intros e. unfold init. destruct zero_out_time.
  - destruct input as [|r0 input]; [discriminate|].
    cbn [map getitem lookup list_lookup rbind s_time scale_row].
    intros He. injection He as <-.
    cbn [num_data_points data already_integrated].
    split; [cbn; rewrite !length_map; reflexivity|].
    split; [cbn; rewrite !length_map; reflexivity|].
    split; [reflexivity|].
    intros i r Hr. eexists. split.
    + change (shift_time ?t ?a :: map (shift_time ?t) ?l)
        with (shift_time t <$> (a :: l)).
      change (scale_row ?a ?b r0 :: map (scale_row ?a ?b) input)
        with (scale_row a b <$> (r0 :: input)).
      rewrite !list_lookup_fmap, Hr. reflexivity.
    + split; reflexivity.
  - cbn [rbind]. intros He. injection He as <-.
    cbn [num_data_points data already_integrated].
    split; [apply length_map|]. split; [apply length_map|].
    split; [reflexivity|].
    intros i r Hr. eexists. split.
    + change (map ?f input) with (f <$> input).
      rewrite list_lookup_fmap, Hr. reflexivity.
    + split; reflexivity.
Qed.
End MoreEulerFacts.

(** ** Runs of the further properties on the rationals *)

Section FurtherRuns.
Import QNum QRuns.
Local Open Scope Q_scope.

Lemma Q_sub_diag (x : Q) : nsub x x = lit 0.
Proof. cbn. apply Qred_complete. ring. Qed.


(** A run of X3's theorem on [g_012]: the two arrays are numbers 2 and 1 of
    a store that was empty. *)
Lemma integrate_all_only_adds_witness :
  exists lt lo s',
    GyroIntegrator.integrate_all (PyState ∅ g_012) = (Ok (Some lt, Some lo), s') /\
    lt <> lo /\
    GyroIntegrator.data (self s') = rows_012 /\
    GyroIntegrator.get_orientations s' = (Ok (Some (Some lt, Some lo)), s').
Proof.
  destruct (integrate_all_only_adds_arrays (PyState ∅ g_012) eq_refl eq_refl)
    as (lt & lo & s' & Hrun & _ & _ & Hne & _ & Hd & _ & _ & Hget).
  exists lt, lo, s'. split; [exact Hrun|]. split; [exact Hne|].
  split; [exact Hd|exact Hget].
Defined.

(** A run of X4's theorem on [g_turn]. *)
Lemma integrate_all_last_orientation_witness :
  exists lt lo s' qs,
    GyroIntegrator.integrate_all (PyState ∅ g_turn) = (Ok (Some lt, Some lo), s') /\
    heap s' !! lo = Some (A4 qs) /\
    GyroIntegrator.orientation (self s') = default (Quat 1 0 0 0) (last qs).
Proof.
  exact (integrate_all_leaves_last_orientation (PyState ∅ g_turn)
           eq_refl eq_refl).
Defined.

(** A run of X5's theorem on [s_012] with the strategy [keep_track]. *)
Lemma get_stabilize_transform_witness :
  exists l s',
    GyroIntegrator.get_stabilize_transform keep_track s_012
      = (Ok (Some 2%positive, l), s') /\
    heap s_012 !! l = None /\
    heap s' !! l = Some (A4 [q_012; q_012; q_012]).
Proof.
  destruct (get_stabilize_transform_rotations keep_track s_012
              2%positive 1%positive [0; 1; 2]
              (replicate 3 GyroIntegrator.default_orientation)
              [0; 1; 2] (replicate 3 GyroIntegrator.default_orientation)
              eq_refl eq_refl eq_refl eq_refl eq_refl eq_refl (le_n 3))
    as (l & s' & Hrun & Hfresh & Hheap & _).
  exists l, s'. split; [exact Hrun|]. split; [exact Hfresh|].
  rewrite Hheap. apply lookup_insert_eq.
Defined.

(** A run of X6's theorem on [s_012] with the strategy [short_track], which
    answers with one smoothed orientation for three samples. *)
Lemma get_stabilize_transform_short_witness :
  fst (GyroIntegrator.get_stabilize_transform short_track s_012)
    = Raise IndexError.
Proof.
  exact (get_stabilize_transform_short_track short_track s_012
           2%positive 1%positive [0; 1; 2]
           (replicate 3 GyroIntegrator.default_orientation)
           [0; 1; 2] [GyroIntegrator.default_orientation]
           eq_refl eq_refl eq_refl eq_refl eq_refl eq_refl (le_S _ _ (le_n 2))).
Defined.

(** A run of X7's theorem: from 0 in steps of 1/2 over [0, 1, 2]. *)
Lemma resample_outputs_on_grid_witness :
  [0; 1 # 2; 1; 3 # 2] = grid (N := Q_Num) 0 (1 # 2) 4 /\
  length [Row q_012; Slerped (slerp q_012 q_012 [1 # 2]);
          Slerped (slerp q_012 q_012 [0]); Slerped (slerp q_012 q_012 [1 # 2])]
    = 4%nat /\
  3 # 2 = nadd 1 (1 # 2).
Proof.
  destruct (resample_outputs_on_grid (N := Q_Num) [0; 1; 2]
              [q_012; q_012; q_012] 0 (1 # 2) 3 _ _ (resample_example_from_zero q_012 q_012 q_012 3 (le_n 3)))
    as (Hgrid & Hlen & Hstep).
  split; [exact Hgrid|]. split; [exact Hlen|].
  exact (Hstep 2%nat 1 (3 # 2) eq_refl eq_refl).
Defined.

Lemma resample_single_run :
  GyroIntegrator.resample 3 [0] [q_012] (-1) (1 # 2) =
    Ok ([-1; -1 # 2; 0], [Row q_012; Row q_012; Row q_012]).
Proof. reflexivity. Qed.

(** A run of X9's theorem: a single timestamp 0, from -1 in steps of 1/2. *)
Lemma resample_single_timestamp_witness :
  Forall (fun r => exists q, [q_012] !! 0%nat = Some q /\ r = Row q)
    [Row q_012; Row q_012; Row q_012].
Proof.
  exact (resample_single_timestamp 3 0 [q_012] (-1) (1 # 2) _ _
           resample_single_run).
Defined.

(** A run of X10's theorem: an interval of zero from start 0. *)
Lemma resample_diverges_witness :
  GyroIntegrator.resample 1000 [0; 1; 2] [q_012; q_012; q_012] 0 0 = OutOfFuel.
Proof.
  exact (resample_diverges_without_progress 1000 [0; 1; 2]
           [q_012; q_012; q_012] q_012 0 0 0 eq_refl eq_refl eq_refl
           (or_intror eq_refl)).
Defined.

Lemma frame_init_012 : FrameRotationIntegrator.init rows_012 None = f_012.
Proof. reflexivity. Qed.

Lemma frame_init_turn :
  FrameRotationIntegrator.init rows_turn (Some (Quat 1 0 0 0)) = f_turn.
Proof. reflexivity. Qed.

(** A run of X12's theorem on [f_turn]: four entries for three samples,
    the first at time -1 with the initial orientation, and the last turn
    taken with step 1 although the timestamps are 1 and 3. *)
Lemma frame_integrate_all_witness :
  exists lt lo s' ts qs q_a,
    FrameRotationIntegrator.integrate_all (PyState ∅ f_turn)
      = (Ok (Some lt, Some lo), s') /\
    heap s' !! lt = Some (A1 ts) /\ heap s' !! lo = Some (A4 qs) /\
    ts = [-1; 0; 1; 3] /\
    qs !! 0%nat = Some (Quat 1 0 0 0) /\
    qs !! 2%nat = Some q_a /\
    qs !! 3%nat = Some (normalize (quaternion_multiply q_a
                          (GyroIntegrator.rate_to_quat (Vec3 1 0 0) 1))).
Proof.
  destruct (frame_integrate_all_track (PyState ∅ f_turn) _
              eq_refl eq_refl eq_refl)
    as (lt & lo & s' & ts & qs & Hrun & Hlt & Hlo & Hlen & _ & Ht0 & Hq0 & _ & Hstep).
  destruct (Hstep 0%nat _ eq_refl) as [Ht1 _].
  destruct (Hstep 1%nat _ eq_refl) as [Ht2 _].
  destruct (Hstep 2%nat _ eq_refl) as [Ht3 (q_a & Hqa & Hqb)].
  exists lt, lo, s', ts, qs, q_a.
  split; [exact Hrun|]. split; [exact Hlt|]. split; [exact Hlo|].
  split.
  { destruct ts as [|t0 [|t1 [|t2 [|t3 [|t4 ts]]]]]; try discriminate.
    injection Ht0 as ->. injection Ht1 as ->. injection Ht2 as ->.
    injection Ht3 as ->. reflexivity. }
  split; [exact Hq0|]. split; [exact Hqa|exact Hqb].
Defined.

(** A run of X13's theorem on [FrameRotationIntegrator([])]. *)
Lemma frame_empty_input_witness :
  FrameRotationIntegrator.integrate_all
      (PyState ∅ (FrameRotationIntegrator.init (N := Q_Num) [] None))
    = (Raise IndexError, PyState ∅ (FrameRotationIntegrator.init [] None)) /\
  FrameRotationIntegrator.get_orientations
      (PyState ∅ (FrameRotationIntegrator.init (N := Q_Num) [] None))
    = (Ok None, PyState ∅ (FrameRotationIntegrator.init [] None)).
Proof.
  exact (frame_empty_input
           (PyState ∅ (FrameRotationIntegrator.init (N := Q_Num) [] None))
           eq_refl eq_refl).
Defined.

(** A run of X14's theorem on the fresh instance [f_012]. *)
Lemma frame_smoothing_witness :
  FrameRotationIntegrator.get_smoothed_orientation (PyState ∅ f_012)
    = (Raise AttributeError, PyState ∅ f_012) /\
  FrameRotationIntegrator.get_stabilize_transform (PyState ∅ f_012)
    = (Raise AttributeError, PyState ∅ f_012) /\
  FrameRotationIntegrator.get_interpolated_stab_transform 10 0 (1 # 2)
      (PyState ∅ f_012)
    = (Raise AttributeError, PyState ∅ f_012).
Proof.
  destruct (frame_smoothing_needs_strategy (L := Q_QuatLib) (PyState ∅ f_012)
              eq_refl) as (Hsm & Hst & Hin & _).
  split; [exact Hsm|]. split; [exact Hst|]. exact (Hin 10%nat 0 (1 # 2)).
Defined.

Lemma frame_integrate_012 :
  FrameRotationIntegrator.integrate_all
      (PyState ∅ (FrameRotationIntegrator.with_smoothing_algo f_012 keep_track))
    = (Ok (Some 2%positive, Some 1%positive), fs_012).
Proof. reflexivity. Qed.

(** A run of X15's theorem on the integrated instance [fs_012]: three
    rotations and a fourth row of zeros. *)
Lemma frame_stabilize_witness :
  exists l stab,
    FrameRotationIntegrator.get_stabilize_transform fs_012 =
      (Ok (Some 2%positive, l),
       PyState (<[l := A4 stab]> (heap fs_012)) (self fs_012)) /\
    stab = [q_012; q_012; q_012; Quat 0 0 0 0].
Proof.
  destruct (frame_stabilize_leaves_zero_row fs_012 keep_track
              2%positive 1%positive [-1; 0; 1; 2]
              (replicate 4 GyroIntegrator.default_orientation)
              [-1; 0; 1; 2] (replicate 4 GyroIntegrator.default_orientation)
              eq_refl eq_refl eq_refl eq_refl eq_refl eq_refl eq_refl
              (le_S _ _ (le_n 3)))
    as (l & stab & Hrun & _ & Hstab & _).
  exists l, stab. split; [exact Hrun|]. rewrite Hstab. reflexivity.
Defined.

(** A run of X16's theorem on [e_012]. *)
Lemma euler_still_track_witness :
  exists lo lt s',
    EulerIntegrator.integrate_all (PyState ∅ e_012) = (Raise AttributeError, s') /\
    EulerIntegrator.already_integrated (self s') = true /\
    heap s' !! lo = Some (A3 [still; still; still]) /\
    heap s' !! lt = Some (A1 [0; 1; 2]) /\
    EulerIntegrator.get_orientations s' = (Raise AttributeError, s').
Proof.
  destruct (euler_still_track_is_stored_then_lost (PyState ∅ e_012)
              eq_refl eq_refl ltac:(repeat constructor))
    as (lo & lt & s' & Hrun & Hint & _ & _ & Hlo & Hlt & _ & Hget).
  exists lo, lt, s'. split; [exact Hrun|]. split; [exact Hint|].
  split; [exact Hlo|]. split; [exact Hlt|exact Hget].
Defined.

(** A run of X17's theorem on [e_turn], whose first sample turns. *)
Lemma euler_moving_track_witness :
  EulerIntegrator.integrate_all (PyState ∅ e_turn)
    = (Raise UFuncTypeError, PyState ∅ e_turn) /\
  EulerIntegrator.get_orientations (PyState ∅ e_turn)
    = (Ok None, PyState ∅ e_turn).
Proof.
  exact (euler_moving_track_raises_unchanged (PyState ∅ e_turn) 0%nat
           (Sample 0 (Vec3 0 0 1)) eq_refl eq_refl eq_refl eq_refl).
Defined.
End FurtherRuns.

(** ** The interpolation weight *)

Section InterpolationWeight.
Context {N : Num} {L : QuatLib N}.
Import GyroIntegrator.
Local Open Scope num_scope.

(** X19: the interpolation weight.  Whenever the inner loop of the
    resampling interpolates, the current time lies between two timestamps,
    [time_list[i] <= time < time_list[i+1]], and the weight handed to slerp
    is neither below 0 nor above 1.  The numbers are assumed to subtract and
    divide monotonically, as rounded binary64 arithmetic does: a difference
    b - a is not negative when a <= b and is positive when a < b,
    subtracting the same number keeps the order, and a quotient x / y with
    y positive is not negative when x is not, and not above 1 when x is not
    above y.  (The weight can be exactly 1 after rounding.) *)
Theorem slerp_weight_in_unit_interval
    (tl : list num) (so : list quat) (interval : num) (i : nat) (st : rs_state) :
  (forall a b, (a <=? b) = true -> (b - a <? lit 0) = false) ->
  (forall a b c, (a <=? b) = true -> (b <? c) = true ->
     (lit 0 <? c - a) = true) ->
  (forall a b c, (a <? b) = true -> (b - c <? a - c) = false) ->
  (forall x y, (x <? lit 0) = false -> (lit 0 <? y) = true ->
     (x / y <? lit 0) = false) ->
  (forall x y, (y <? x) = false -> (lit 0 <? y) = true ->
     (lit 1 <? x / y) = false) ->
  in_interval tl i st = Ok true ->
  exists ti tj,
    tl !! i = Some ti /\ tl !! (i + 1)%nat = Some tj /\
    (ti <=? fst (fst st)) = true /\ (fst (fst st) <? tj) = true /\
    ((fst (fst st) - ti) / (tj - ti) <? lit 0) = false /\
    (lit 1 <? (fst (fst st) - ti) / (tj - ti)) = false /\
    emit_slerp tl so interval i st =
      rbind (getitem so i) (fun qi =>
      rbind (getitem so (i + 1)) (fun qj =>
        Ok (emit interval
              (Slerped (slerp qi qj [(fst (fst st) - ti) / (tj - ti)])) st))).
Proof.
  intros Hnonneg Hpos Hmono Hdiv0 Hdiv1.
  destruct st as [[time out] rots]. cbn [fst snd].
  unfold in_interval, getitem. cbn [fst snd]. intros Hc.
  destruct (tl !! i) as [ti|] eqn:Hi; cbn [rbind] in Hc; try discriminate.
  destruct (ti <=? time) eqn:Hle; try discriminate.
  destruct (tl !! (i + 1)%nat) as [tj|] eqn:Hj; cbn [rbind] in Hc;
    try discriminate.
  injection Hc as Hlt.
  exists ti, tj. split; [reflexivity|]. split; [reflexivity|].
  split; [exact Hle|]. split; [exact Hlt|].
  pose proof (Hpos ti time tj Hle Hlt) as Hy.
  split; [apply Hdiv0; [apply Hnonneg, Hle|exact Hy]|].
  split; [apply Hdiv1; [apply Hmono, Hlt|exact Hy]|].
  unfold emit_slerp, getitem. rewrite Hi, Hj. reflexivity.
Qed.
End InterpolationWeight.

Section RationalArithmetic.
Import QNum.
Local Open Scope Q_scope.

Lemma nlt_false_intro (a b : Q) : b <= a -> nlt a b = false.
Proof. cbn. rewrite negb_false_iff. apply Qle_bool_iff. Qed.

Lemma nlt_true_intro (a b : Q) : a < b -> nlt a b = true.
Proof.
  cbn. rewrite negb_true_iff. intros H.
  destruct (Qle_bool b a) eqn:E; [|reflexivity].
  apply Qle_bool_iff in E. Lqa.lra.
Qed.

Lemma Q_sub_nonneg (a b : Q) : nle a b = true -> nlt (nsub b a) (lit 0) = false.
Proof.
  intros H. apply nle_true in H. apply nlt_false_intro.
  change (Qred 0 <= Qred (b - a)). rewrite !Qred_correct. Lqa.lra.
Qed.

Lemma Q_sub_pos (a b c : Q) :
  nle a b = true -> nlt b c = true -> nlt (lit 0) (nsub c a) = true.
Proof.
  intros H1 H2. apply nle_true in H1. apply nlt_true in H2.
  apply nlt_true_intro. change (Qred 0 < Qred (c - a)).
  rewrite !Qred_correct. Lqa.lra.
Qed.

Lemma Q_sub_monotone (a b c : Q) :
  nlt a b = true -> nlt (nsub b c) (nsub a c) = false.
Proof.
  intros H. apply nlt_true in H. apply nlt_false_intro.
  change (Qred (a - c) <= Qred (b - c)). rewrite !Qred_correct. Lqa.lra.
Qed.

Lemma Q_div_nonneg (x y : Q) :
  nlt x (lit 0) = false -> nlt (lit 0) y = true ->
  nlt (ndiv x y) (lit 0) = false.
Proof.
  intros Hx Hy. apply nlt_false in Hx. apply nlt_true in Hy.
  change (Qred 0 <= x) in Hx. change (Qred 0 < y) in Hy.
  rewrite Qred_correct in Hx, Hy. apply nlt_false_intro.
  change (Qred 0 <= Qred (x / y)). rewrite !Qred_correct.
  apply Qle_shift_div_l; Lqa.lra.
Qed.

Lemma Q_div_le_one (x y : Q) :
  nlt y x = false -> nlt (lit 0) y = true -> nlt (lit 1) (ndiv x y) = false.
Proof.
  intros Hx Hy. apply nlt_false in Hx. apply nlt_true in Hy.
  change (Qred 0 < y) in Hy. rewrite Qred_correct in Hy.
  apply nlt_false_intro.
  change (Qred (x / y) <= Qred 1). rewrite !Qred_correct.
  apply Qle_shift_div_r; Lqa.lra.
Qed.
End RationalArithmetic.

(** A run of X19's theorem on the rationals: at time 1/2 between the
    timestamps 0 and 1 the weight is 1/2. *)
Lemma slerp_weight_witness :
  exists ti tj : Q,
    [0; 1; 2]%Q !! 0%nat = Some ti /\ [0; 1; 2]%Q !! 1%nat = Some tj /\
    @nlt QNum.Q_Num (@ndiv QNum.Q_Num (@nsub QNum.Q_Num (1 # 2)%Q ti)
                       (@nsub QNum.Q_Num tj ti)) 0%Q = false /\
    @nlt QNum.Q_Num 1%Q (@ndiv QNum.Q_Num (@nsub QNum.Q_Num (1 # 2)%Q ti)
                           (@nsub QNum.Q_Num tj ti)) = false.
Proof.
  destruct (slerp_weight_in_unit_interval (N := QNum.Q_Num)
              (L := QNum.Q_QuatLib)
              [0; 1; 2]%Q [QNum.q_012; QNum.q_012; QNum.q_012]
              (1 # 2)%Q 0 ((1 # 2)%Q, [], [])
              Q_sub_nonneg Q_sub_pos Q_sub_monotone Q_div_nonneg Q_div_le_one
              eq_refl)
    as (ti & tj & Hi & Hj & _ & _ & H0 & H1 & _).
  exists ti, tj. split; [exact Hi|]. split; [exact Hj|].
  split; [exact H0|exact H1].
Defined.
